(** * Metadata reconciliation and upsert pipeline: a shallow embedding

    The development follows [data_cleaning/lib/util.py] (impact scoring,
    identifier normalization, abstract reconstruction, document builder)
    and [data_cleaning/get_papers.py] (the upsert loop).

    Conventions of the embedding:
    - Python values that travel through the JSON payloads are the
      inductive [pyval]; a [dict] is an association list in insertion
      order with pairwise distinct keys.
    - A Python [float] is the rational it denotes, or one of the two
      infinities, or nan; every arithmetic result is rounded to binary64
      (to nearest, ties to even) and overflows to an infinity.  The sign
      of a zero is not kept: no comparison tells [-0.0] from [0.0].
    - Strings are sequences of ASCII code points.
    - A call that may raise returns a [result]; [Raise e] is a Python
      exception, [Unmodelled] marks an input on which Python computes
      something this development does not describe. *)

From Stdlib Require Import ZArith QArith Qround Qpower Qreduction Qcanon.
From Stdlib Require Import String Ascii List Bool Lia.
From Stdlib Require Import Permutation Sorted DecimalString Lqa.
Import ListNotations.

Local Open Scope string_scope.
Local Open Scope Z_scope.

(** ** Outcomes of a call *)

Inductive exn : Type :=
| TypeError
| ValueError
| AttributeError
| IndexError
| KeyError
| OverflowError
| ZeroDivisionError
| PyMongoError.

Inductive result (A : Type) : Type :=
| Ok (a : A)
| Raise (e : exn)
| Unmodelled.

Arguments Ok {A} a.
Arguments Raise {A} e.
Arguments Unmodelled {A}.

Definition bind {A B : Type} (c : result A) (k : A -> result B) : result B :=
  match c with
  | Ok a => k a
  | Raise e => Raise e
  | Unmodelled => Unmodelled
  end.

Notation "x <- c ;; k" := (bind c (fun x => k))
  (at level 61, c at next level, right associativity).

(** [try: c except Exception: h] *)
Definition try_except {A : Type} (c : result A) (h : result A) : result A :=
  match c with
  | Raise _ => h
  | other => other
  end.

Fixpoint mapM {A B : Type} (f : A -> result B) (l : list A) : result (list B) :=
  match l with
  | [] => Ok []
  | x :: l' => y <- f x ;; ys <- mapM f l' ;; Ok (y :: ys)
  end.

(** ** Values *)

Inductive pyfloat : Type :=
| FNum (q : Q)
| FInf (negative : bool)
| FNan.

#[warnings="-register-all"]
Inductive pyval : Type :=
| VNone
| VBool (b : bool)
| VInt (z : Z)
| VFloat (f : pyfloat)
| VStr (s : string)
| VList (l : list pyval)
| VDict (d : list (string * pyval)).

Definition pydict : Type := list (string * pyval).

(** ** Strings *)

Module Str.

(** [str.isspace] on one ASCII character: tab to carriage return, the
    four separators 0x1c-0x1f and the space. *)
Definition is_space (c : ascii) : bool :=
  let n := nat_of_ascii c in
  ((9 <=? n) && (n <=? 13) || (28 <=? n) && (n <=? 32))%nat.

(** C [isspace], used by the numeric parsers. *)
Definition is_cspace (c : ascii) : bool :=
  let n := nat_of_ascii c in
  ((9 <=? n) && (n <=? 13) || (n =? 32))%nat.

Definition lower_char (c : ascii) : ascii :=
  let n := nat_of_ascii c in
  if ((65 <=? n) && (n <=? 90))%nat then ascii_of_nat (n + 32) else c.

(** [s.lower()] *)
Fixpoint lower (s : string) : string :=
  match s with
  | EmptyString => EmptyString
  | String c s' => String (lower_char c) (lower s')
  end.

Fixpoint lstrip_by (sp : ascii -> bool) (s : string) : string :=
  match s with
  | EmptyString => EmptyString
  | String c s' => if sp c then lstrip_by sp s' else s
  end.

Fixpoint rstrip_by (sp : ascii -> bool) (s : string) : string :=
  match s with
  | EmptyString => EmptyString
  | String c s' =>
      match rstrip_by sp s' with
      | EmptyString => if sp c then EmptyString else String c EmptyString
      | r => String c r
      end
  end.

(** [s.strip()] *)
Definition strip (s : string) : string := rstrip_by is_space (lstrip_by is_space s).

(** Non-overlapping occurrences of [old] are replaced from the left;
    [skip] counts the characters of a match still to be dropped. *)
Fixpoint replace_from (old new : string) (skip : nat) (s : string) : string :=
  match s with
  | EmptyString => EmptyString
  | String c s' =>
      match skip with
      | S k => replace_from old new k s'
      | O =>
          if prefix old s
          then new ++ replace_from old new (String.length old - 1) s'
          else String c (replace_from old new O s')
      end
  end.

(** [s.replace(old, new)] for a non-empty [old]. *)
Definition replace (old new s : string) : string := replace_from old new O s.

(** [old in s] *)
Fixpoint occurs (old s : string) : bool :=
  match s with
  | EmptyString => prefix old EmptyString
  | String _ s' => prefix old s || occurs old s'
  end.

(** [s[:n]] *)
Fixpoint take (n : nat) (s : string) : string :=
  match n, s with
  | S k, String c s' => String c (take k s')
  | _, _ => EmptyString
  end.

(** [sep.join(ws)] *)
Fixpoint join (sep : string) (ws : list string) : string :=
  match ws with
  | [] => EmptyString
  | [w] => w
  | w :: ws' => w ++ sep ++ join sep ws'
  end.

Fixpoint chars (s : string) : list string :=
  match s with
  | EmptyString => []
  | String c s' => String c EmptyString :: chars s'
  end.

End Str.

(** ** Numbers *)

Module Num.

Definition digit_of (c : ascii) : option Z :=
  let n := nat_of_ascii c in
  if ((48 <=? n) && (n <=? 57))%nat then Some (Z.of_nat (n - 48)) else None.

Definition is_underscore (c : ascii) : bool := (nat_of_ascii c =? 95)%nat.

(** Reads [digit ("_"? digit)*] after a first digit has been seen:
    [acc] is the value so far, [n] the number of digits so far. *)
Fixpoint digits_rest (acc : Z) (n : nat) (s : string) : Z * nat * string :=
  match s with
  | EmptyString => (acc, n, s)
  | String c s' =>
      match digit_of c with
      | Some d => digits_rest (10 * acc + d) (S n) s'
      | None =>
          if is_underscore c then
            match s' with
            | String c' s'' =>
                match digit_of c' with
                | Some d => digits_rest (10 * acc + d) (S n) s''
                | None => (acc, n, s)
                end
            | EmptyString => (acc, n, s)
            end
          else (acc, n, s)
      end
  end.

(** A digit part: its value, its number of digits and the rest. *)
Definition digitpart (s : string) : option (Z * nat * string) :=
  match s with
  | String c s' =>
      match digit_of c with
      | Some d => Some (digits_rest d 1 s')
      | None => None
      end
  | EmptyString => None
  end.

(** An optional sign: [true] for a minus. *)
Definition sign (s : string) : bool * string :=
  match s with
  | String "-" s' => (true, s')
  | String "+" s' => (false, s')
  | _ => (false, s)
  end.

Definition signed (neg : bool) (z : Z) : Z := if neg then - z else z.

Definition trim (s : string) : string :=
  Str.rstrip_by Str.is_cspace (Str.lstrip_by Str.is_cspace s).

(** [int(s)] for a string, base ten. *)
Definition int_of_string (s : string) : option Z :=
  let (neg, body) := sign (trim s) in
  match digitpart body with
  | Some (v, _, EmptyString) => Some (signed neg v)
  | _ => None
  end.

Definition pow10 (e : Z) : Q :=
  if 0 <=? e then inject_Z (10 ^ e) else / inject_Z (10 ^ (- e)).

(** The exponent of a decimal literal, [0] when there is none. *)
Definition exponent (s : string) : option Z :=
  match s with
  | EmptyString => Some 0
  | String c s' =>
      if (nat_of_ascii c =? 101)%nat || (nat_of_ascii c =? 69)%nat then
        let (neg, body) := sign s' in
        match digitpart body with
        | Some (v, _, EmptyString) => Some (signed neg v)
        | _ => None
        end
      else None
  end.

(** An unsigned decimal literal: [d+ [. d*] [e]], [. d+ [e]]. *)
Definition decimal (s : string) : option Q :=
  match digitpart s with
  | Some (ip, _, String "." rest) =>
      match digitpart rest with
      | Some (fp, n, rest') =>
          match exponent rest' with
          | Some e => Some (inject_Z (ip * 10 ^ Z.of_nat n + fp) * pow10 (e - Z.of_nat n))%Q
          | None => None
          end
      | None =>
          match exponent rest with
          | Some e => Some (inject_Z ip * pow10 e)%Q
          | None => None
          end
      end
  | Some (ip, _, rest) =>
      match exponent rest with
      | Some e => Some (inject_Z ip * pow10 e)%Q
      | None => None
      end
  | None =>
      match s with
      | String "." rest =>
          match digitpart rest with
          | Some (fp, n, rest') =>
              match exponent rest' with
              | Some e => Some (inject_Z fp * pow10 (e - Z.of_nat n))%Q
              | None => None
              end
          | None => None
          end
      | _ => None
      end
  end.

(** *** binary64 *)

Definition pow2 (e : Z) : Q := (2 ^ e)%Q.

(** The nearest integer, a tie going to the even one. *)
Definition rne (x : Q) : Z :=
  let f := Qfloor x in
  match (x - inject_Z f ?= 1 # 2)%Q with
  | Lt => f
  | Gt => f + 1
  | Eq => if Z.even f then f else f + 1
  end.

(** [floor (log2 x)] for a positive [x]. *)
Definition ilog2 (x : Q) : Z :=
  let l := Z.log2 (Qnum x) - Z.log2 (Zpos (Qden x)) in
  if Qle_bool (pow2 l) x then l else l - 1.

(** The exponent of the binade of [x]; below [2^-1022] the subnormal
    numbers share the spacing of the lowest binade. *)
Definition binade (x : Q) : Z := Z.max (ilog2 x) (-1022).

(** A positive [x] rounded to 53 significant bits. *)
Definition round_pos (x : Q) : Q :=
  let u := pow2 (binade x - 52) in
  Qred (inject_Z (rne (x / u)) * u).

(** The largest finite binary64 number. *)
Definition max_double : Q := inject_Z ((2 ^ 53 - 1) * 2 ^ 971).

(** The binary64 number that an operation returns when its exact
    result is [x]. *)
Definition round64 (x : Q) : pyfloat :=
  match (x ?= 0)%Q with
  | Eq => FNum 0
  | Gt => let r := round_pos x in
          if Qle_bool r max_double then FNum r else FInf false
  | Lt => let r := round_pos (- x) in
          if Qle_bool r max_double then FNum (- r) else FInf true
  end.

(** [float(s)] for a string: the literal is rounded; one that is too
    large gives an infinity. *)
Definition float_of_string (s : string) : option pyfloat :=
  let (neg, body) := sign (trim s) in
  let word := Str.lower body in
  if (word =? "inf")%string || (word =? "infinity")%string then Some (FInf neg)
  else if (word =? "nan")%string then Some FNan
  else
    match decimal body with
    | Some q => Some (round64 (if neg then - q else q)%Q)
    | None => None
    end.

(** [float(z)] for an int: the int is rounded; one that is too large
    raises. *)
Definition float_of_int (z : Z) : result pyfloat :=
  match round64 (inject_Z z) with
  | FInf _ => Raise OverflowError
  | f => Ok f
  end.

(** Truncation toward zero, as [int(x)] does on a float. *)
Definition trunc (q : Q) : Z := Z.quot (Qnum q) (Zpos (Qden q)).

Definition fgt (a b : pyfloat) : bool :=
  match a, b with
  | FNan, _ | _, FNan => false
  | FInf true, _ => false
  | FInf false, FInf false => false
  | FInf false, _ => true
  | FNum _, FInf neg => neg
  | FNum x, FNum y => negb (Qle_bool x y)
  end.

Definition flt (a b : pyfloat) : bool := fgt b a.

Definition fneg (a : pyfloat) : pyfloat :=
  match a with
  | FNum q => FNum (- q)%Q
  | FInf neg => FInf (negb neg)
  | FNan => FNan
  end.

(** [x / y] for two floats: a zero divisor raises, and the quotient
    of two numbers is rounded. *)
Definition fdiv (x y : pyfloat) : result pyfloat :=
  match y with
  | FNum b =>
      if Qeq_bool b 0 then Raise ZeroDivisionError
      else
        Ok match x with
           | FNum a => round64 (a / b)
           | FInf neg => FInf (if Qle_bool b 0 then negb neg else neg)
           | FNan => FNan
           end
  | FInf _ => Ok match x with FNum _ => FNum 0 | _ => FNan end
  | FNan => Ok FNan
  end.

(** [x / n] for a float [x] and an int [n]: the int is converted to a
    float first. *)
Definition fdiv_int (x : pyfloat) (n : Z) : result pyfloat :=
  y <- float_of_int n ;; fdiv x y.

End Num.

(** ** Operations of the language on loosely typed values *)

Module Py.

(** [bool(v)], the test of [if v], [v or w] and [not v]. *)
Definition truthy (v : pyval) : bool :=
  match v with
  | VNone => false
  | VBool b => b
  | VInt z => negb (z =? 0)
  | VFloat (FNum q) => negb (Qeq_bool q 0)
  | VFloat _ => true
  | VStr s => negb (s =? "")%string
  | VList l => match l with [] => false | _ => true end
  | VDict d => match d with [] => false | _ => true end
  end.

(** [a or b] on values already computed. *)
Definition or_ (a b : pyval) : pyval := if truthy a then a else b.

Fixpoint lookup (k : string) (d : pydict) : option pyval :=
  match d with
  | [] => None
  | (k', v) :: d' => if (k' =? k)%string then Some v else lookup k d'
  end.

(** [v.get(k, default)]: only a dict has the method. *)
Definition get_or (v : pyval) (k : string) (default : pyval) : result pyval :=
  match v with
  | VDict d => Ok match lookup k d with Some x => x | None => default end
  | _ => Raise AttributeError
  end.

(** [v.get(k)] *)
Definition get (v : pyval) (k : string) : result pyval := get_or v k VNone.

(** The elements a [for] loop over [v] visits. *)
Definition iter (v : pyval) : result (list pyval) :=
  match v with
  | VList l => Ok l
  | VStr s => Ok (map VStr (Str.chars s))
  | VDict d => Ok (map (fun kv => VStr (fst kv)) d)
  | _ => Raise TypeError
  end.

(** [v[0]] *)
Definition first (v : pyval) : result pyval :=
  match v with
  | VList (x :: _) => Ok x
  | VList [] => Raise IndexError
  | VStr (String c _) => Ok (VStr (String c EmptyString))
  | VStr EmptyString => Raise IndexError
  | VDict _ => Raise KeyError
  | _ => Raise TypeError
  end.

(** [v[-1]] for a list. *)
Definition last_of (l : list pyval) : result pyval :=
  match rev l with
  | x :: _ => Ok x
  | [] => Raise IndexError
  end.

(** [int(v)] *)
Definition int (v : pyval) : result Z :=
  match v with
  | VBool b => Ok (if b then 1 else 0)
  | VInt z => Ok z
  | VFloat (FNum q) => Ok (Num.trunc q)
  | VFloat (FInf _) => Raise OverflowError
  | VFloat FNan => Raise ValueError
  | VStr s => match Num.int_of_string s with Some z => Ok z | None => Raise ValueError end
  | VNone | VList _ | VDict _ => Raise TypeError
  end.

(** [float(v)] *)
Definition float (v : pyval) : result pyfloat :=
  match v with
  | VBool b => Ok (FNum (if b then 1 else 0))
  | VInt z => Num.float_of_int z
  | VFloat f => Ok f
  | VStr s => match Num.float_of_string s with Some f => Ok f | None => Raise ValueError end
  | VNone | VList _ | VDict _ => Raise TypeError
  end.

(** [v > n] for an int literal [n]. *)
Definition gt_int (v : pyval) (n : Z) : result bool :=
  match v with
  | VBool b => Ok ((if b then 1 else 0) >? n)
  | VInt z => Ok (z >? n)
  | VFloat f => Ok (Num.fgt f (FNum (inject_Z n)))
  | VNone | VStr _ | VList _ | VDict _ => Raise TypeError
  end.

(** [str(v)] as an f-string inserts it; the text of a float, a list
    or a dict is not described here. *)
Definition format (v : pyval) : result string :=
  match v with
  | VNone => Ok "None"
  | VBool true => Ok "True"
  | VBool false => Ok "False"
  | VInt z => Ok (NilEmpty.string_of_int (Z.to_int z))
  | VStr s => Ok s
  | VFloat _ | VList _ | VDict _ => Unmodelled
  end.

(** [v[:n]] followed by its insertion in an f-string.  A string gives
    its first [n] characters.  A list gives the text of its first [n]
    elements, which has no bounded length and is not described here, no
    more than what slicing a dict does. *)
Definition format_prefix (n : nat) (v : pyval) : result string :=
  match v with
  | VStr s => Ok (Str.take n s)
  | VList _ | VDict _ => Unmodelled
  | VNone | VBool _ | VInt _ | VFloat _ => Raise TypeError
  end.

End Py.

(** ** [lib/util.py] *)

Import Py.

(** *** Impact scoring *)

(** [impact_score(citations, publication_year)]; [current_year] is
    what [datetime.now().year] answers during the call. *)
Definition impact_age (current_year : Z) (publication_year : pyval) : Z :=
  let year := try_except (y <- int publication_year ;; Ok (Some y)) (Ok None) in
  match year with
  | Ok (Some y) =>
      if negb (y =? 0) && (y <=? current_year)
      then Z.max 1 (current_year - y + 1)
      else 1
  | _ => 1
  end.

Definition impact_citations (citations : pyval) : result pyfloat :=
  try_except (float citations) (Ok (FNum 0)).

Definition impact_score (current_year : Z) (citations publication_year : pyval)
  : result pyfloat :=
  let age := impact_age current_year publication_year in
  citations_val <- impact_citations citations ;;
  Num.fdiv_int citations_val age.

Definition classify_impact (score : pyval) : result string :=
  high <- gt_int score 5 ;;
  if high then Ok "HIGH"
  else
    moderate <- gt_int score 1 ;;
    if moderate then Ok "MODERATE" else Ok "LOW".

Definition determine_processing_status (pdf_url : pyval) : string :=
  if truthy pdf_url then "pending_download" else "no_pdf_available".

(** *** Data helpers *)

Definition https_prefix : string := "https://doi.org/".
Definition http_prefix : string := "http://doi.org/".

Definition normalize_str (s : string) : string :=
  Str.replace http_prefix "" (Str.replace https_prefix "" (Str.strip (Str.lower s))).

Definition normalize_doi (doi : pyval) : result pyval :=
  if negb (truthy doi) then Ok VNone
  else
    match doi with
    | VStr s => Ok (VStr (normalize_str s))
    | _ => Raise AttributeError
    end.

Fixpoint _safe_get (data : pyval) (keys : list string) (default : pyval) : pyval :=
  match keys with
  | [] => match data with VNone => default | _ => data end
  | key :: keys' =>
      match data with
      | VDict d =>
          _safe_get (match lookup key d with Some v => v | None => VNone end) keys' default
      | _ => default
      end
  end.

Definition author_entry (name affiliation : pyval) : pyval :=
  VDict [("name", name); ("affiliation", or_ affiliation (VStr ""))].

(** The affiliation both loops compute: [xs[0].get(field) if xs else ""]. *)
Definition first_affiliation (xs : pyval) (field : string) : result pyval :=
  if truthy xs then x <- first xs ;; get x field else Ok (VStr "").

(** One round of the loop over the catalog's authorships: the entries
    it appends. *)
Definition openalex_author (authorship : pyval) : result (list pyval) :=
  a <- get authorship "author" ;;
  let author_info := or_ a (VDict []) in
  n <- get author_info "display_name" ;;
  let name := or_ n (VStr "") in
  i <- get authorship "institutions" ;;
  let institutions := or_ i (VList []) in
  affiliation <- first_affiliation institutions "display_name" ;;
  Ok (if truthy name then [author_entry name affiliation] else []).

(** One round of the fallback loop over Crossref's authors. *)
Definition crossref_author (a : pyval) : result (list pyval) :=
  given <- get_or a "given" (VStr "") ;;
  family <- get_or a "family" (VStr "") ;;
  g <- format given ;;
  f <- format family ;;
  let name := Str.strip (g ++ " " ++ f) in
  af <- get a "affiliation" ;;
  let affs := or_ af (VList []) in
  affiliation <- first_affiliation affs "name" ;;
  Ok (if negb (name =? "")%string then [author_entry (VStr name) affiliation] else []).

Definition _extract_authors (work crossref : pyval) : result (list pyval) :=
  au <- get work "authorships" ;;
  rounds <- iter (or_ au (VList [])) ;;
  found <- mapM openalex_author rounds ;;
  let authors := concat found in
  match authors with
  | [] =>
      if truthy crossref then
        ca <- get crossref "author" ;;
        rounds' <- iter (or_ ca (VList [])) ;;
        found' <- mapM crossref_author rounds' ;;
        Ok (concat found')
      else Ok []
  | _ => Ok authors
  end.

(** *** Abstract reconstruction *)

(** The number a sort key stands for, when it is one that orders. *)
Definition key_number (v : pyval) : option pyfloat :=
  match v with
  | VBool b => Some (FNum (if b then 1 else 0))
  | VInt z => Some (FNum (inject_Z z))
  | VFloat FNan => None
  | VFloat f => Some f
  | _ => None
  end.

Definition is_number_key (v : pyval) : bool :=
  match key_number v with Some _ => true | None => false end.

Definition is_string_key (v : pyval) : bool :=
  match v with VStr _ => true | _ => false end.

(** Keys whose comparison is left out: lists compare element by
    element, and nan answers [False] to every comparison. *)
Definition is_loose_key (v : pyval) : bool :=
  match v with VList _ | VFloat FNan => true | _ => false end.

(** [a < b] between two numbers or between two strings. *)
Definition key_lt (a b : pyval) : bool :=
  match a, b with
  | VStr s, VStr t => (s <? t)%string
  | _, _ =>
      match key_number a, key_number b with
      | Some x, Some y => Num.flt x y
      | _, _ => false
      end
  end.

Section StableSort.
Context {A : Type} (lt : A -> A -> bool).

(** [x] stood before every element of [l] in the input: it goes in
    front of the first element that is not smaller. *)
Fixpoint insert_sorted (x : A) (l : list A) : list A :=
  match l with
  | [] => [x]
  | y :: l' => if lt y x then y :: insert_sorted x l' else x :: l
  end.

Fixpoint stable_sort (l : list A) : list A :=
  match l with
  | [] => []
  | x :: l' => insert_sorted x (stable_sort l')
  end.
End StableSort.

(** [words.sort(key=lambda x: x[0])]: the sort is stable; with two or
    more elements it compares keys, and keys of kinds that do not
    compare raise [TypeError]. *)
Definition sort_by_position (words : list (pyval * string))
  : result (list (pyval * string)) :=
  match words with
  | [] | [_] => Ok words
  | _ =>
      let keys := map fst words in
      if forallb is_number_key keys || forallb is_string_key keys
      then Ok (stable_sort (fun a b => key_lt (fst a) (fst b)) words)
      else if existsb is_loose_key keys then Unmodelled
      else Raise TypeError
  end.

Definition occurrences_of (entry : string * pyval) : result (list (pyval * string)) :=
  positions <- iter (snd entry) ;;
  Ok (map (fun pos => (pos, fst entry)) positions).

Definition _reconstruct_abstract (inverted_index : pyval) : result string :=
  if negb (truthy inverted_index) then Ok ""
  else
    match inverted_index with
    | VDict d =>
        per_word <- mapM occurrences_of d ;;
        words <- sort_by_position (concat per_word) ;;
        Ok (Str.join " " (map snd words))
    | _ => Raise AttributeError
    end.

(** *** Document builder *)

(** [a or b or ...] where only the last operand can raise. *)
Definition or_else (a : pyval) (b : result pyval) : result pyval :=
  if truthy a then Ok a else b.

Definition tag_of (c : pyval) : result (list pyval) :=
  keep <- get c "display_name" ;;
  if truthy keep then name <- get c "display_name" ;; Ok [name] else Ok [].

Definition build_paper_document (current_year : Z) (work crossref unpaywall : pyval)
  : result pyval :=
  t <- get work "title" ;;
  let title := or_ t (VStr "<no title>") in
  c <- get_or work "cited_by_count" (VInt 0) ;;
  let citations := or_ c (VInt 0) in
  year <- get work "publication_year" ;;
  raw_doi <- get work "doi" ;;
  doi <- normalize_doi raw_doi ;;
  openalex_id <- get work "id" ;;
  let crossref := or_ crossref (VDict []) in
  let unpaywall := or_ unpaywall (VDict []) in
  authors <- _extract_authors work crossref ;;
  journal_name <-
    or_else (_safe_get work ["host_venue"; "display_name"] VNone)
      (or_else (_safe_get work ["primary_location"; "source"; "display_name"] VNone)
         (ct <- get crossref "container-title" ;; first (or_ ct (VList [VNone])))) ;;
  issn <-
    or_else (_safe_get work ["host_venue"; "issn_l"] VNone)
      (or_else (_safe_get work ["primary_location"; "source"; "issn_l"] VNone)
         (i <- get crossref "ISSN" ;; first (or_ i (VList [VNone])))) ;;
  w_oa <- get_or work "is_oa" (VBool false) ;;
  is_oa <-
    (if truthy w_oa then Ok true
     else u_oa <- get_or unpaywall "is_oa" (VBool false) ;; Ok (truthy u_oa)) ;;
  pdf_url <-
    or_else (_safe_get work ["best_oa_location"; "url_for_pdf"] VNone)
      (or_else (_safe_get work ["primary_location"; "pdf_url"] VNone)
         (or_else (_safe_get unpaywall ["best_oa_location"; "url_for_pdf"] VNone)
            (get unpaywall "url"))) ;;
  let oa_status :=
    or_ (_safe_get work ["best_oa_location"; "license"] VNone)
      (or_ (_safe_get unpaywall ["best_oa_location"; "license"] VNone) (VStr "")) in
  plain <- get work "abstract" ;;
  abstract <-
    or_else plain
      (index <- get work "abstract_inverted_index" ;;
       rebuilt <- _reconstruct_abstract index ;;
       or_else (VStr rebuilt)
         (ca <- get crossref "abstract" ;; Ok (or_ ca (VStr "")))) ;;
  score <- impact_score current_year citations year ;;
  classification <- classify_impact (VFloat score) ;;
  cby <- get work "counts_by_year" ;;
  let counts_by_year := or_ cby (VList []) in
  influential <-
    match counts_by_year with
    | VList (x :: l) =>
        latest <- last_of (x :: l) ;;
        n <- get_or latest "cited_by_count" (VInt 0) ;;
        int n
    | _ => Ok 0
    end ;;
  let processing_status := determine_processing_status pdf_url in
  co <- get work "concepts" ;;
  concepts <- iter (or_ co (VList [])) ;;
  kept <- mapM tag_of concepts ;;
  let tags := concat kept in
  work_id <-
    or_else openalex_id
      (or_else doi (excerpt <- format_prefix 80 title ;; Ok (VStr ("auto:" ++ excerpt)))) ;;
  year_field <- (if truthy year then y <- int year ;; Ok (VInt y) else Ok VNone) ;;
  citation_count <- int citations ;;
  Ok (VDict
        [("_id", work_id);
         ("title", title);
         ("year", year_field);
         ("authors", VList authors);
         ("journal",
           VDict [("name", or_ journal_name (VStr "")); ("issn", or_ issn (VStr ""))]);
         ("impact",
           VDict [("citation_count", VInt citation_count);
                  ("citations_per_year", VFloat score);
                  ("classification", VStr classification);
                  ("influential_citations", VInt influential)]);
         ("open_access",
           VDict [("is_oa", VBool is_oa);
                  ("pdf_url", or_ pdf_url (VStr ""));
                  ("status", oa_status)]);
         ("content",
           VDict [("abstract", abstract);
                  ("full_text_extracted", VBool false);
                  ("local_path", VNone)]);
         ("processing_status", VStr processing_status);
         ("tags", VList tags)]).

(** ** [get_papers.py]: the upsert loop over the document store *)

Definition pyfloat_eqb (a b : pyfloat) : bool :=
  match a, b with
  | FNum x, FNum y => Qeq_bool x y
  | FInf x, FInf y => Bool.eqb x y
  | FNan, FNan => true
  | _, _ => false
  end.

(** Two values the store holds as the same value. *)
Fixpoint pyval_eqb (a b : pyval) : bool :=
  match a, b with
  | VNone, VNone => true
  | VBool x, VBool y => Bool.eqb x y
  | VInt x, VInt y => x =? y
  | VFloat x, VFloat y => pyfloat_eqb x y
  | VStr x, VStr y => (x =? y)%string
  | VList x, VList y =>
      (fix all2 (x y : list pyval) : bool :=
         match x, y with
         | [], [] => true
         | a :: x', b :: y' => pyval_eqb a b && all2 x' y'
         | _, _ => false
         end) x y
  | VDict x, VDict y =>
      (fix all2 (x y : list (string * pyval)) : bool :=
         match x, y with
         | [], [] => true
         | (k, a) :: x', (k', b) :: y' => (k =? k')%string && pyval_eqb a b && all2 x' y'
         | _, _ => false
         end) x y
  | _, _ => false
  end.

Definition pydict_eqb (a b : pydict) : bool := pyval_eqb (VDict a) (VDict b).

Module Store.

(** The [papers] collection: the stored documents under their [_id];
    for each coming call of the store whether it fails (a rejected
    write, a lost connection), no entry meaning no failure; and for each
    failing call in turn whether its write had reached the collection
    when the call raised (a lost acknowledgement), no entry meaning it
    had not. *)
Record collection : Type := {
  documents : list (pyval * pydict);
  faults : list bool;
  applied : list bool
}.

(** pymongo's [UpdateResult]. *)
Record update_result : Type := {
  upserted_id : pyval;
  matched_count : Z;
  modified_count : Z
}.

Fixpoint find (_id : pyval) (docs : list (pyval * pydict)) : option pydict :=
  match docs with
  | [] => None
  | (k, d) :: docs' => if pyval_eqb k _id then Some d else find _id docs'
  end.

Fixpoint put (_id : pyval) (doc : pydict) (docs : list (pyval * pydict))
  : list (pyval * pydict) :=
  match docs with
  | [] => []
  | (k, d) :: docs' =>
      if pyval_eqb k _id then (k, doc) :: docs' else (k, d) :: put _id doc docs'
  end.

(** What the write of a replacement with [upsert=True] leaves in the
    collection. *)
Definition write (_id : pyval) (doc : pydict) (docs : list (pyval * pydict))
  : list (pyval * pydict) :=
  match find _id docs with
  | Some _ => put _id doc docs
  | None => (docs ++ [(_id, doc)])%list
  end.

(** [coll.replace_one({"_id": _id}, doc, upsert=True)]: without a
    match the document is inserted and [upserted_id] is its id; with a
    match the stored document is replaced, and [modified_count] counts
    it only when the replacement differs from what was stored.  A call
    that fails raises, with its write applied or not as the collection
    has it. *)
Definition replace_one (coll : collection) (_id : pyval) (doc : pydict)
  : collection * result update_result :=
  match faults coll with
  | true :: later =>
      ({| documents := if hd false (applied coll)
                       then write _id doc (documents coll)
                       else documents coll;
          faults := later;
          applied := tl (applied coll) |},
       Raise PyMongoError)
  | _ =>
      let later := tl (faults coll) in
      match find _id (documents coll) with
      | Some old =>
          ({| documents := put _id doc (documents coll);
              faults := later; applied := applied coll |},
           Ok {| upserted_id := VNone;
                 matched_count := 1;
                 modified_count := if pydict_eqb old doc then 0 else 1 |})
      | None =>
          ({| documents := (documents coll ++ [(_id, doc)])%list;
              faults := later; applied := applied coll |},
           Ok {| upserted_id := _id; matched_count := 0; modified_count := 0 |})
      end
  end.

End Store.

(** What a run of [upsert_to_db] has done so far: the store, the two
    counters, and the ids of the records whose failure was printed. *)
Record run : Type := {
  store : Store.collection;
  inserted : Z;
  updated : Z;
  reported : list pyval
}.

(** The body of [for doc in papers]. *)
Definition upsert_one (doc : pydict) (st : run) : run :=
  let _id := match lookup "_id" doc with Some v => v | None => VNone end in
  if negb (truthy _id) then st
  else
    let (coll, outcome) := Store.replace_one (store st) _id doc in
    match outcome with
    | Ok res =>
        if truthy (Store.upserted_id res) then
          {| store := coll; inserted := inserted st + 1;
             updated := updated st; reported := reported st |}
        else if negb (Store.modified_count res =? 0) then
          {| store := coll; inserted := inserted st;
             updated := updated st + 1; reported := reported st |}
        else
          {| store := coll; inserted := inserted st;
             updated := updated st; reported := reported st |}
    | _ =>
        {| store := coll; inserted := inserted st;
           updated := updated st; reported := (reported st ++ [_id])%list |}
    end.

Fixpoint upsert_loop (papers : list pydict) (st : run) : run :=
  match papers with
  | [] => st
  | doc :: papers' => upsert_loop papers' (upsert_one doc st)
  end.

(** [upsert_to_db(papers)] on the collection [coll]; every paper is a
    dict, as [process_and_enrich] builds them. *)
Definition upsert_to_db (papers : list pydict) (coll : Store.collection) : run :=
  upsert_loop papers {| store := coll; inserted := 0; updated := 0; reported := [] |}.

(** The pair the function returns. *)
Definition returned (r : run) : Z * Z := (inserted r, updated r).

(** * Properties *)

(** ** Rounding to binary64 *)

Section Rounding.
Local Open Scope Q_scope.

Lemma pow2_pos : forall e, 0 < Num.pow2 e.
Proof. intros e. apply Qpower_0_lt. reflexivity. Qed.

Lemma pow2_add : forall a b, Num.pow2 (a + b) == Num.pow2 a * Num.pow2 b.
Proof. intros a b. apply Qpower_plus. discriminate. Qed.

Lemma pow2_Z : forall e, (0 <= e)%Z -> Num.pow2 e == inject_Z (2 ^ e).
Proof. intros e H. unfold Num.pow2. rewrite (Zpower_Qpower 2 e H). reflexivity. Qed.

Lemma pow2_le : forall a b, (a <= b)%Z -> Num.pow2 a <= Num.pow2 b.
Proof. intros a b H. apply Qpower_le_compat_l; [exact H | discriminate]. Qed.

Lemma pow2_lt_inv : forall a b, Num.pow2 a < Num.pow2 b -> (a < b)%Z.
Proof. intros a b H. apply (Qpower_lt_compat_l_inv 2); [exact H | reflexivity]. Qed.

(** Rounding to the nearest integer, ties to even. *)

Lemma rne_bounds : forall x, (Qfloor x <= Num.rne x <= Qfloor x + 1)%Z.
Proof.
  intros x. unfold Num.rne.
  destruct (x - inject_Z (Qfloor x) ?= 1 # 2); [destruct (Z.even _) | |]; lia.
Qed.

Lemma rne_Z : forall z, Num.rne (inject_Z z) = z.
Proof.
  intros z. unfold Num.rne. rewrite Qfloor_Z.
  assert (E : (inject_Z z - inject_Z z ?= 1 # 2) = Lt).
  { apply (proj1 (Qlt_alt _ _)). ring_simplify. reflexivity. }
  rewrite E. reflexivity.
Qed.

Lemma rne_comp : forall x y, x == y -> Num.rne x = Num.rne y.
Proof.
  intros x y H. unfold Num.rne. rewrite (Qfloor_comp x y H).
  assert (E : x - inject_Z (Qfloor y) == y - inject_Z (Qfloor y)) by (rewrite H; reflexivity).
  rewrite (Qcompare_comp _ _ E (1 # 2) (1 # 2) (Qeq_refl _)). reflexivity.
Qed.

Lemma rne_mono : forall x y, x <= y -> (Num.rne x <= Num.rne y)%Z.
Proof.
  intros x y H. pose proof (Qfloor_resp_le x y H) as Hf.
  pose proof (rne_bounds x) as Bx. pose proof (rne_bounds y) as By.
  destruct (Z.eq_dec (Qfloor x) (Qfloor y)) as [E | N]; [| lia].
  unfold Num.rne. rewrite E.
  destruct (Qcompare_spec (x - inject_Z (Qfloor y)) (1 # 2)) as [Hx | Hx | Hx];
    destruct (Qcompare_spec (y - inject_Z (Qfloor y)) (1 # 2)) as [Hy | Hy | Hy];
    try (destruct (Z.even (Qfloor y))); try lia; exfalso; lra.
Qed.

(** The binade of a positive rational. *)

Lemma Zpow2_pos : forall n, (0 <= n)%Z -> (0 < 2 ^ n)%Z.
Proof. intros n H. apply Z.pow_pos_nonneg; lia. Qed.

Lemma ilog2_coarse : forall x, 0 < x ->
  let l := (Z.log2 (Qnum x) - Z.log2 (Zpos (Qden x)))%Z in
  Num.pow2 (l - 1) <= x /\ x < Num.pow2 (l + 1).
Proof.
  intros [n d] Hx. cbn [Qnum Qden].
  assert (Hn : (0 < n)%Z) by (unfold Qlt in Hx; simpl in Hx; lia).
  pose proof (Z.log2_spec n Hn) as [Ha1 Ha2].
  pose proof (Z.log2_spec (Zpos d) eq_refl) as [Hb1 Hb2].
  pose proof (Z.log2_nonneg n) as Ha0. pose proof (Z.log2_nonneg (Zpos d)) as Hb0.
  set (a := Z.log2 n) in *. set (b := Z.log2 (Zpos d)) in *.
  pose proof (Zpow2_pos a Ha0) as Pa. pose proof (Zpow2_pos b Hb0) as Pb.
  replace (Z.succ a) with (a + 1)%Z in Ha2 by lia.
  replace (Z.succ b) with (b + 1)%Z in Hb2 by lia.
  split.
  - apply (Qmult_le_r _ _ (Num.pow2 (b + 1))); [apply pow2_pos |].
    rewrite <- pow2_add. replace (a - b - 1 + (b + 1))%Z with a by lia.
    rewrite (pow2_Z a Ha0), (pow2_Z (b + 1)) by lia.
    unfold Qle, Qmult, inject_Z. simpl. nia.
  - apply (Qmult_lt_r _ _ (Num.pow2 b)); [apply pow2_pos |].
    rewrite <- pow2_add. replace (a - b + 1 + b)%Z with (a + 1)%Z by lia.
    rewrite (pow2_Z (a + 1)), (pow2_Z b Hb0) by lia.
    unfold Qlt, Qmult, inject_Z. simpl. nia.
Qed.

Lemma ilog2_spec : forall x, 0 < x -> Num.pow2 (Num.ilog2 x) <= x /\ x < Num.pow2 (Num.ilog2 x + 1).
Proof.
  intros x Hx. pose proof (ilog2_coarse x Hx) as [Hlo Hhi]. unfold Num.ilog2.
  set (l := (Z.log2 (Qnum x) - Z.log2 (Zpos (Qden x)))%Z) in *.
  destruct (Qle_bool (Num.pow2 l) x) eqn:E.
  - apply Qle_bool_iff in E. split; assumption.
  - split; [exact Hlo |].
    replace (l - 1 + 1)%Z with l by lia.
    apply Qnot_le_lt. intros H. apply Qle_bool_iff in H. congruence.
Qed.

Lemma ilog2_unique : forall x e, Num.pow2 e <= x -> x < Num.pow2 (e + 1) -> 0 < x -> Num.ilog2 x = e.
Proof.
  intros x e Hlo Hhi Hx. pose proof (ilog2_spec x Hx) as [Slo Shi].
  assert (Num.ilog2 x < e + 1)%Z by (apply pow2_lt_inv; lra).
  assert (e < Num.ilog2 x + 1)%Z by (apply pow2_lt_inv; lra).
  lia.
Qed.

Lemma ilog2_mono : forall x y, 0 < x -> x <= y -> (Num.ilog2 x <= Num.ilog2 y)%Z.
Proof.
  intros x y Hx Hxy. assert (Hy : 0 < y) by lra.
  pose proof (ilog2_spec x Hx) as [Xlo Xhi]. pose proof (ilog2_spec y Hy) as [Ylo Yhi].
  assert (Num.ilog2 x < Num.ilog2 y + 1)%Z by (apply pow2_lt_inv; lra).
  lia.
Qed.

(** Rounding a positive rational to 53 bits. *)

Lemma round_pos_eq : forall x,
  Num.round_pos x == inject_Z (Num.rne (x / Num.pow2 (Num.binade x - 52))) * Num.pow2 (Num.binade x - 52).
Proof. intros x. unfold Num.round_pos. apply Qred_correct. Qed.

Lemma scale_le : forall x y e, x <= y -> x / Num.pow2 e <= y / Num.pow2 e.
Proof.
  intros x y e H. unfold Qdiv. apply Qmult_le_compat_r; [exact H |].
  apply Qlt_le_weak, Qinv_lt_0_compat, pow2_pos.
Qed.

Lemma scale_pow2 : forall a e, Num.pow2 a / Num.pow2 e == Num.pow2 (a - e).
Proof.
  intros a e. unfold Qdiv. replace (a - e)%Z with (a + - e)%Z by lia.
  rewrite pow2_add. unfold Num.pow2 at 4. rewrite Qpower_opp. reflexivity.
Qed.

Lemma unscale : forall a e, Num.pow2 (a - e) * Num.pow2 e == Num.pow2 a.
Proof. intros a e. rewrite <- pow2_add. replace (a - e + e)%Z with a by lia. reflexivity. Qed.

Lemma binade_mono : forall x y, 0 < x -> x <= y -> (Num.binade x <= Num.binade y)%Z.
Proof. intros x y Hx Hxy. unfold Num.binade. pose proof (ilog2_mono x y Hx Hxy). lia. Qed.

Lemma round_pos_upper : forall x, 0 < x -> Num.round_pos x <= Num.pow2 (Num.binade x + 1).
Proof.
  intros x Hx. rewrite round_pos_eq. set (e := Num.binade x).
  pose proof (ilog2_spec x Hx) as [_ Hhi].
  assert (Hx' : x <= Num.pow2 (e + 1)).
  { apply Qlt_le_weak. eapply Qlt_le_trans; [exact Hhi |].
    apply pow2_le. unfold e, Num.binade. lia. }
  assert (Hs : x / Num.pow2 (e - 52) <= inject_Z (2 ^ 53)).
  { rewrite <- (pow2_Z 53) by lia.
    replace 53%Z with (e + 1 - (e - 52))%Z by lia.
    rewrite <- (scale_pow2 (e + 1) (e - 52)). apply scale_le. exact Hx'. }
  apply rne_mono in Hs. rewrite rne_Z in Hs.
  rewrite <- (unscale (e + 1) (e - 52)). replace (e + 1 - (e - 52))%Z with 53%Z by lia.
  apply Qmult_le_compat_r; [| apply Qlt_le_weak, pow2_pos].
  rewrite (pow2_Z 53) by lia. rewrite <- Zle_Qle. exact Hs.
Qed.

Lemma round_pos_lower : forall x, 0 < x -> (-1022 <= Num.ilog2 x)%Z ->
  Num.pow2 (Num.binade x) <= Num.round_pos x.
Proof.
  intros x Hx Hn. rewrite round_pos_eq. set (e := Num.binade x).
  pose proof (ilog2_spec x Hx) as [Hlo _].
  assert (He : e = Num.ilog2 x) by (unfold e, Num.binade; lia).
  assert (Hs : inject_Z (2 ^ 52) <= x / Num.pow2 (e - 52)).
  { rewrite <- (pow2_Z 52) by lia.
    replace 52%Z with (e - (e - 52))%Z at 1 by lia.
    rewrite <- (scale_pow2 e (e - 52)). apply scale_le. rewrite He. exact Hlo. }
  apply rne_mono in Hs. rewrite rne_Z in Hs.
  rewrite <- (unscale e (e - 52)) at 1. replace (e - (e - 52))%Z with 52%Z by lia.
  apply Qmult_le_compat_r; [| apply Qlt_le_weak, pow2_pos].
  rewrite (pow2_Z 52) by lia. rewrite <- Zle_Qle. exact Hs.
Qed.

Lemma round_pos_mono : forall x y, 0 < x -> x <= y -> Num.round_pos x <= Num.round_pos y.
Proof.
  intros x y Hx Hxy. assert (Hy : 0 < y) by lra.
  pose proof (binade_mono x y Hx Hxy) as Hb.
  destruct (Z.eq_dec (Num.binade x) (Num.binade y)) as [E | N].
  - rewrite !round_pos_eq. rewrite E.
    apply Qmult_le_compat_r; [| apply Qlt_le_weak, pow2_pos].
    rewrite <- Zle_Qle. apply rne_mono, scale_le. exact Hxy.
  - assert (Hlt : (Num.binade x < Num.binade y)%Z) by lia.
    assert (Hn : (-1022 <= Num.ilog2 y)%Z) by (unfold Num.binade in *; lia).
    eapply Qle_trans; [apply round_pos_upper; exact Hx |].
    eapply Qle_trans; [| apply round_pos_lower; assumption].
    apply pow2_le. lia.
Qed.

Lemma round_pos_nonneg : forall x, 0 < x -> 0 <= Num.round_pos x.
Proof.
  intros x Hx. rewrite round_pos_eq.
  apply Qmult_le_0_compat; [| apply Qlt_le_weak, pow2_pos].
  change 0 with (inject_Z 0). rewrite <- Zle_Qle.
  rewrite <- (rne_Z 0). apply rne_mono.
  apply Qlt_le_weak. unfold Qdiv. apply Qmult_lt_0_compat; [exact Hx |].
  apply Qinv_lt_0_compat, pow2_pos.
Qed.

(** Rounding to binary64 is monotone. *)

Lemma round64_pos : forall x, 0 < x ->
  Num.round64 x = if Qle_bool (Num.round_pos x) Num.max_double then FNum (Num.round_pos x) else FInf false.
Proof.
  intros x Hx. unfold Num.round64.
  rewrite (proj1 (Qgt_alt x 0) Hx). reflexivity.
Qed.

Lemma round64_neg : forall x, x < 0 ->
  Num.round64 x = if Qle_bool (Num.round_pos (- x)) Num.max_double
              then FNum (- Num.round_pos (- x)) else FInf true.
Proof.
  intros x Hx. unfold Num.round64.
  rewrite (proj1 (Qlt_alt x 0) Hx). reflexivity.
Qed.

Lemma round64_zero : forall x, x == 0 -> Num.round64 x = FNum 0.
Proof.
  intros x Hx. unfold Num.round64.
  rewrite (proj1 (Qeq_alt x 0) Hx). reflexivity.
Qed.

Lemma fgt_num : forall x y, x <= y -> Num.fgt (FNum x) (FNum y) = false.
Proof. intros x y H. simpl. apply Qle_bool_iff in H. rewrite H. reflexivity. Qed.

Lemma Qle_bool_false : forall x y : Q, Qle_bool x y = false <-> y < x.
Proof.
  intros x y. split; intros H.
  - apply Qnot_le_lt. intros Hle. apply Qle_bool_iff in Hle. congruence.
  - destruct (Qle_bool x y) eqn:E; [| reflexivity].
    apply Qle_bool_iff in E. exfalso. exact (Qlt_not_le _ _ H E).
Qed.

Lemma round64_mono : forall x y, x <= y -> Num.fgt (Num.round64 x) (Num.round64 y) = false.
Proof.
  intros x y Hxy.
  destruct (Qcompare_spec x 0) as [Hx | Hx | Hx];
    destruct (Qcompare_spec y 0) as [Hy | Hy | Hy]; try (exfalso; lra).
  - rewrite (round64_zero x Hx), (round64_zero y Hy). reflexivity.
  - rewrite (round64_zero x Hx), (round64_pos y Hy).
    destruct (Qle_bool (Num.round_pos y) Num.max_double); [| reflexivity].
    apply fgt_num, round_pos_nonneg, Hy.
  - rewrite (round64_neg x Hx), (round64_zero y Hy).
    destruct (Qle_bool (Num.round_pos (- x)) Num.max_double); [| reflexivity].
    apply fgt_num. assert (0 <= Num.round_pos (- x)) by (apply round_pos_nonneg; lra). lra.
  - rewrite (round64_neg x Hx), (round64_neg y Hy).
    assert (Hr : Num.round_pos (- y) <= Num.round_pos (- x)) by (apply round_pos_mono; lra).
    destruct (Qle_bool (Num.round_pos (- x)) Num.max_double) eqn:Ex;
      destruct (Qle_bool (Num.round_pos (- y)) Num.max_double) eqn:Ey; try reflexivity.
    + apply fgt_num. lra.
    + apply Qle_bool_iff in Ex. apply Qle_bool_false in Ey. exfalso. lra.
  - rewrite (round64_neg x Hx), (round64_pos y Hy).
    destruct (Qle_bool (Num.round_pos (- x)) Num.max_double);
      destruct (Qle_bool (Num.round_pos y) Num.max_double); try reflexivity.
    apply fgt_num.
    assert (0 <= Num.round_pos (- x)) by (apply round_pos_nonneg; lra).
    assert (0 <= Num.round_pos y) by (apply round_pos_nonneg; lra). lra.
  - rewrite (round64_pos x Hx), (round64_pos y Hy).
    assert (Hr : Num.round_pos x <= Num.round_pos y) by (apply round_pos_mono; lra).
    destruct (Qle_bool (Num.round_pos x) Num.max_double) eqn:Ex;
      destruct (Qle_bool (Num.round_pos y) Num.max_double) eqn:Ey; try reflexivity.
    + apply fgt_num. exact Hr.
    + apply Qle_bool_iff in Ey. apply Qle_bool_false in Ex. exfalso. lra.
Qed.

(** Integers up to 2^53 are binary64 numbers. *)

Lemma ilog2_Z : forall z, (0 < z)%Z -> Num.ilog2 (inject_Z z) = Z.log2 z.
Proof.
  intros z Hz. pose proof (Z.log2_spec z Hz) as [Hlo Hhi].
  pose proof (Z.log2_nonneg z) as H0.
  apply ilog2_unique.
  - rewrite pow2_Z by lia. rewrite <- Zle_Qle. exact Hlo.
  - rewrite pow2_Z by lia. rewrite <- Zlt_Qlt. replace (Z.log2 z + 1)%Z with (Z.succ (Z.log2 z)) by lia. exact Hhi.
  - change 0 with (inject_Z 0). rewrite <- Zlt_Qlt. exact Hz.
Qed.

Lemma round_pos_Z : forall z, (0 < z <= 2 ^ 53)%Z -> Num.round_pos (inject_Z z) = inject_Z z.
Proof.
  intros z [Hz Hmax]. unfold Num.round_pos, Num.binade.
  rewrite (ilog2_Z z Hz).
  pose proof (Z.log2_spec z Hz) as [Hlo Hhi].
  pose proof (Z.log2_nonneg z) as H0.
  assert (He : (Z.log2 z <= 53)%Z).
  { pose proof (Z.log2_le_mono z (2 ^ 53) Hmax) as H.
    rewrite Z.log2_pow2 in H by lia. exact H. }
  set (e := Z.log2 z) in *.
  replace (Z.max e (-1022)) with e by lia.
  assert (Hm : exists m, inject_Z z / Num.pow2 (e - 52) == inject_Z m).
  { destruct (Z.eq_dec e 53) as [E | N].
    - exists (2 ^ 52)%Z. rewrite E in *. assert (z = 2 ^ 53)%Z by lia. subst z.
      vm_compute. reflexivity.
    - exists (z * 2 ^ (52 - e))%Z.
      rewrite inject_Z_mult. rewrite <- (pow2_Z (52 - e)) by lia.
      unfold Qdiv. apply Qmult_comp; [reflexivity |].
      replace (52 - e)%Z with (- (e - 52))%Z by lia. unfold Num.pow2. rewrite Qpower_opp. reflexivity. }
  destruct Hm as [m Hm].
  rewrite (rne_comp _ _ Hm), rne_Z.
  rewrite (Qred_complete (inject_Z m * Num.pow2 (e - 52)) (inject_Z z)).
  - apply Qred_identity. simpl. apply Z.gcd_1_r.
  - rewrite <- Hm. field. intros Hp. pose proof (pow2_pos (e - 52)). lra.
Qed.

Lemma round64_Z : forall z, (- 2 ^ 53 <= z <= 2 ^ 53)%Z -> Num.round64 (inject_Z z) = FNum (inject_Z z).
Proof.
  intros z Hz.
  assert (Hmax : forall k, (0 < k <= 2 ^ 53)%Z -> Qle_bool (inject_Z k) Num.max_double = true).
  { intros k Hk. apply Qle_bool_iff. unfold Num.max_double. rewrite <- Zle_Qle.
    assert (2 ^ 53 <= (2 ^ 53 - 1) * 2 ^ 971)%Z by (vm_compute; discriminate). lia. }
  destruct (Z.lt_trichotomy z 0) as [Hneg | [-> | Hpos]].
  - rewrite round64_neg by (change 0 with (inject_Z 0); rewrite <- Zlt_Qlt; exact Hneg).
    change (- inject_Z z) with (inject_Z (- z)).
    rewrite round_pos_Z by lia. rewrite Hmax by lia.
    change (- inject_Z (- z)) with (inject_Z (- - z)). rewrite Z.opp_involutive. reflexivity.
  - reflexivity.
  - rewrite round64_pos by (change 0 with (inject_Z 0); rewrite <- Zlt_Qlt; exact Hpos).
    rewrite round_pos_Z by lia. rewrite Hmax by lia. reflexivity.
Qed.

End Rounding.

(** What the interpreter answers: [10/3] is [3.3333333333333335],
    [float(2**53 + 1)] is [2.0**53], the largest float is the last int
    that converts, [float("1e400")] is [inf], [5e-324/3] is [0.0]. *)
Lemma round64_examples :
  Num.round64 (10 # 3) = FNum (7505999378950827 # 2251799813685248) /\
  Num.float_of_int (2 ^ 53 + 1) = Ok (FNum (inject_Z (2 ^ 53))) /\
  Num.float_of_int (2 ^ 1024 - 2 ^ 970 - 1) = Ok (FNum Num.max_double) /\
  Num.float_of_int (2 ^ 1024 - 2 ^ 970) = Raise OverflowError /\
  Num.float_of_int (10 ^ 400) = Raise OverflowError /\
  Num.float_of_string "1e400" = Some (FInf false) /\
  Num.fdiv_int (FNum (Num.pow2 (-1074))) 3 = Ok (FNum 0).
Proof. repeat match goal with |- _ /\ _ => split end; vm_compute; reflexivity. Qed.

(** ** Scoring and classification *)

(** The score followed by its classification, as the builder chains them. *)
Definition impact_tier (current_year : Z) (citations publication_year : pyval)
  : result string :=
  score <- impact_score current_year citations publication_year ;;
  classify_impact (VFloat score).

Definition tier_rank (tier : string) : Z :=
  if (tier =? "HIGH")%string then 2
  else if (tier =? "MODERATE")%string then 1
  else 0.

Lemma impact_age_pos : forall current_year publication_year,
  1 <= impact_age current_year publication_year.
Proof.
  intros cy y. unfold impact_age.
  destruct (try_except _ _) as [[z|]| |]; try lia.
  destruct (negb (z =? 0) && (z <=? cy)); lia.
Qed.

Lemma round64_not_nan : forall x, Num.round64 x <> FNan.
Proof.
  intros x. unfold Num.round64.
  destruct (x ?= 0)%Q; [discriminate | |];
    destruct (Qle_bool _ Num.max_double); discriminate.
Qed.

(** An int within 2^53 of zero converts to itself. *)
Lemma float_of_int_exact : forall z,
  - 2 ^ 53 <= z <= 2 ^ 53 -> Num.float_of_int z = Ok (FNum (inject_Z z)).
Proof.
  intros z Hz. unfold Num.float_of_int. rewrite (round64_Z z Hz). reflexivity.
Qed.


(** An age that converts at all converts to a number that is at least 1. *)
Lemma float_of_int_age : forall n a,
  1 <= n -> Num.float_of_int n = Ok a -> exists A, a = FNum A /\ (1 <= A)%Q.
Proof.
  intros n a Hn Ha. unfold Num.float_of_int in Ha.
  assert (Hle : (inject_Z 1 <= inject_Z n)%Q) by (rewrite <- Zle_Qle; exact Hn).
  pose proof (round64_mono _ _ Hle) as Hm.
  pose proof (round64_not_nan (inject_Z n)) as Hnan.
  rewrite (round64_Z 1) in Hm by lia.
  destruct (Num.round64 (inject_Z n)) as [A | neg |]; try discriminate; [| contradiction].
  injection Ha as <-. exists A. split; [reflexivity |].
  simpl in Hm. apply negb_false_iff, Qle_bool_iff in Hm. exact Hm.
Qed.

Lemma fdiv_num : forall q A,
  (1 <= A)%Q -> Num.fdiv (FNum q) (FNum A) = Ok (Num.round64 (q / A)).
Proof.
  intros q A HA. unfold Num.fdiv.
  destruct (Qeq_bool A 0) eqn:E; [| reflexivity].
  apply Qeq_bool_iff in E. exfalso. lra.
Qed.

Lemma fdiv_int_num : forall q n a,
  1 <= n -> Num.float_of_int n = Ok a ->
  exists A, a = FNum A /\ (1 <= A)%Q /\
            Num.fdiv_int (FNum q) n = Ok (Num.round64 (q / A)).
Proof.
  intros q n a Hn Ha. destruct (float_of_int_age n a Hn Ha) as (A & -> & HA).
  exists A. split; [reflexivity | split; [exact HA |]].
  unfold Num.fdiv_int. rewrite Ha. simpl. apply fdiv_num. exact HA.
Qed.

Lemma fdiv_int_exact : forall q n,
  1 <= n <= 2 ^ 53 ->
  Num.fdiv_int (FNum q) n = Ok (Num.round64 (q / inject_Z n)).
Proof.
  intros q n Hn. unfold Num.fdiv_int.
  rewrite float_of_int_exact by lia. simpl. apply fdiv_num.
  change 1%Q with (inject_Z 1). rewrite <- Zle_Qle. lia.
Qed.

Lemma classify_float : forall q,
  classify_impact (VFloat (FNum q)) =
  Ok (if negb (Qle_bool q 5) then "HIGH"
      else if negb (Qle_bool q 1) then "MODERATE" else "LOW").
Proof.
  intros q. unfold classify_impact. simpl.
  change (inject_Z 5) with 5%Q. change (inject_Z 1) with 1%Q.
  destruct (Qle_bool q 5); simpl; [| reflexivity].
  destruct (Qle_bool q 1); reflexivity.
Qed.

(** A score that is not smaller never gets a lower tier. *)
Lemma classify_mono : forall s1 s2,
  s2 <> FNan -> Num.fgt s1 s2 = false ->
  exists t1 t2,
    classify_impact (VFloat s1) = Ok t1 /\
    classify_impact (VFloat s2) = Ok t2 /\
    tier_rank t1 <= tier_rank t2.
Proof.
  intros [q1 | [|] |] [q2 | [|] |] Hnan Hle; try contradiction; try discriminate;
    try (rewrite ?classify_float;
         eexists; eexists; split; [reflexivity | split; [reflexivity |]]).
  - simpl in Hle. apply negb_false_iff, Qle_bool_iff in Hle.
    destruct (Qle_bool q1 5) eqn:A5;
      [apply Qle_bool_iff in A5 | apply Qle_bool_false in A5];
      (destruct (Qle_bool q1 1) eqn:A1;
       [apply Qle_bool_iff in A1 | apply Qle_bool_false in A1]);
      (destruct (Qle_bool q2 5) eqn:B5;
       [apply Qle_bool_iff in B5 | apply Qle_bool_false in B5]);
      (destruct (Qle_bool q2 1) eqn:B1;
       [apply Qle_bool_iff in B1 | apply Qle_bool_false in B1]);
      simpl; try (vm_compute; discriminate); exfalso; lra.
  - destruct (negb (Qle_bool q1 5)); [| destruct (negb (Qle_bool q1 1))];
      vm_compute; discriminate.
  - destruct (negb (Qle_bool q2 5)); [| destruct (negb (Qle_bool q2 1))];
      vm_compute; discriminate.
  - vm_compute. discriminate.
  - vm_compute. discriminate.
  - vm_compute. discriminate.
  - destruct (negb (Qle_bool q2 5)); [| destruct (negb (Qle_bool q2 1))];
      vm_compute; discriminate.
  - vm_compute. discriminate.
  - vm_compute. discriminate.
Qed.

(** The score of a finite count, when the age converts to a float. *)
Lemma impact_score_num : forall cy c year q a,
  float c = Ok (FNum q) ->
  Num.float_of_int (impact_age cy year) = Ok a ->
  exists A, a = FNum A /\ (1 <= A)%Q /\
            impact_score cy c year = Ok (Num.round64 (q / A)).
Proof.
  intros cy c year q a Hc Ha. unfold impact_score, impact_citations.
  rewrite Hc. simpl. apply fdiv_int_num; [apply impact_age_pos | exact Ha].
Qed.

Lemma impact_score_exact : forall cy c year q,
  float c = Ok (FNum q) ->
  impact_age cy year <= 2 ^ 53 ->
  impact_score cy c year = Ok (Num.round64 (q / inject_Z (impact_age cy year))).
Proof.
  intros cy c year q Hc Ha. unfold impact_score, impact_citations.
  rewrite Hc. simpl. apply fdiv_int_exact.
  pose proof (impact_age_pos cy year). lia.
Qed.

Lemma Qdiv_le : forall q1 q2 A : Q,
  (1 <= A)%Q -> (q1 <= q2)%Q -> (q1 / A <= q2 / A)%Q.
Proof.
  intros q1 q2 A HA Hle. unfold Qdiv.
  apply Qmult_le_compat_r; [exact Hle |].
  apply Qinv_le_0_compat. lra.
Qed.

Lemma Zdiv_Qle : forall a b c d : Z,
  0 < b -> 0 < d -> a * d <= c * b ->
  (inject_Z a / inject_Z b <= inject_Z c / inject_Z d)%Q.
Proof.
  intros a b c d Hb Hd H.
  destruct b as [| pb | pb]; try lia. destruct d as [| pd | pd]; try lia.
  unfold Qle, Qdiv, Qmult, Qinv, inject_Z. simpl.
  rewrite !Z.mul_1_r. exact H.
Qed.

(** A score whose exact value is at least [p] is above every number
    below the rounding of [p]. *)
Lemma round64_above : forall p v x t,
  Num.round64 p = FNum v -> (p <= x)%Q -> (t < v)%Q ->
  Num.fgt (Num.round64 x) (FNum t) = true.
Proof.
  intros p v x t Hp Hx Ht. pose proof (round64_mono p x Hx) as Hm.
  pose proof (round64_not_nan x) as Hnan. rewrite Hp in Hm.
  destruct (Num.round64 x) as [w | [|] |]; try discriminate; try contradiction;
    [| reflexivity].
  simpl in Hm. apply negb_false_iff, Qle_bool_iff in Hm.
  simpl. apply negb_true_iff, Qle_bool_false. lra.
Qed.

Lemma round64_below : forall p v x,
  Num.round64 p = FNum v -> (x <= p)%Q ->
  Num.fgt (Num.round64 x) (FNum v) = false.
Proof.
  intros p v x Hp Hx. rewrite <- Hp. apply round64_mono. exact Hx.
Qed.

Lemma round64_under : forall p v x t,
  Num.round64 p = FNum v -> (x <= p)%Q -> (v < t)%Q ->
  Num.fgt (FNum t) (Num.round64 x) = true.
Proof.
  intros p v x t Hp Hx Ht. pose proof (round64_mono x p Hx) as Hm.
  pose proof (round64_not_nan x) as Hnan. rewrite Hp in Hm.
  destruct (Num.round64 x) as [w | [|] |]; try discriminate; try contradiction;
    [| reflexivity].
  simpl in Hm. apply negb_false_iff, Qle_bool_iff in Hm.
  simpl. apply negb_true_iff, Qle_bool_false. lra.
Qed.

(** C2, as it is worded, fails on an integer count beyond the range of a
    float: [float] raises [OverflowError] on it, the scorer turns that
    into 0.0, and the larger count lands in a lower tier. *)
Lemma larger_count_lower_tier :
  ~ (forall current_year year (c1 c2 : Z) t1 t2,
       c1 <= c2 ->
       impact_tier current_year (VInt c1) year = Ok t1 ->
       impact_tier current_year (VInt c2) year = Ok t2 ->
       tier_rank t1 <= tier_rank t2).
Proof.
  intros H.
  specialize (H 2026 (VInt 2026) 10 (10 ^ 400) "HIGH" "LOW").
  assert (Hle : 10 <= 10 ^ 400) by (vm_compute; discriminate).
  specialize (H Hle ltac:(vm_compute; reflexivity) ltac:(vm_compute; reflexivity)).
  vm_compute in H. apply H. reflexivity.
Qed.

(** C2, amended: [classify_impact] answers HIGH exactly above 5, MODERATE
    exactly in (1, 5], LOW otherwise, so 5 is MODERATE and 1 is LOW; and
    for a fixed publication year whose age converts to a float, a larger
    citation count never gets a lower tier, over the counts that [float]
    accepts as numbers. *)
Theorem classify_impact_thresholds :
  (forall q : Q,
     (classify_impact (VFloat (FNum q)) = Ok "HIGH" <-> (5 < q)%Q) /\
     (classify_impact (VFloat (FNum q)) = Ok "MODERATE" <-> (1 < q)%Q /\ (q <= 5)%Q) /\
     (classify_impact (VFloat (FNum q)) = Ok "LOW" <-> (q <= 1)%Q)) /\
  classify_impact (VFloat (FNum 5)) = Ok "MODERATE" /\
  classify_impact (VFloat (FNum 1)) = Ok "LOW" /\
  (forall current_year year c1 c2 q1 q2 a,
     float c1 = Ok (FNum q1) -> float c2 = Ok (FNum q2) -> (q1 <= q2)%Q ->
     Num.float_of_int (impact_age current_year year) = Ok a ->
     exists t1 t2,
       impact_tier current_year c1 year = Ok t1 /\
       impact_tier current_year c2 year = Ok t2 /\
       tier_rank t1 <= tier_rank t2).
Proof.
  split; [| split; [reflexivity | split; [reflexivity |]]].
  - intros q. rewrite classify_float.
    destruct (Qle_bool q 5) eqn:E5;
      [apply Qle_bool_iff in E5 | apply Qle_bool_false in E5];
      (destruct (Qle_bool q 1) eqn:E1;
       [apply Qle_bool_iff in E1 | apply Qle_bool_false in E1]);
      simpl; (split; [| split]); split; intros H;
      try discriminate; try reflexivity; lra.
  - intros cy year c1 c2 q1 q2 a H1 H2 Hle Ha.
    destruct (impact_score_num cy c1 year q1 a H1 Ha) as (A & -> & HA & S1).
    destruct (impact_score_num cy c2 year q2 _ H2 Ha) as (A' & EA & _ & S2).
    injection EA as <-.
    unfold impact_tier. rewrite S1, S2. simpl.
    apply classify_mono; [apply round64_not_nan |].
    apply round64_mono, Qdiv_le; assumption.
Qed.

Lemma classify_impact_thresholds_witness :
  exists t1 t2,
    impact_tier 2026 (VInt 4) (VInt 2025) = Ok t1 /\
    impact_tier 2026 (VInt 30) (VInt 2025) = Ok t2 /\
    tier_rank t1 <= tier_rank t2.
Proof.
  apply (proj2 (proj2 (proj2 classify_impact_thresholds))
           2026 (VInt 2025) (VInt 4) (VInt 30) (inject_Z 4) (inject_Z 30)
           (FNum (inject_Z 2))).
  - reflexivity.
  - reflexivity.
  - vm_compute. discriminate.
  - reflexivity.
Defined.

(** ** The document builder *)

Lemma bind_ok : forall (A B : Type) (c : result A) (k : A -> result B) (b : B),
  bind c k = Ok b -> exists a, c = Ok a /\ k a = Ok b.
Proof.
  intros A B c k b H. destruct c as [a | e |]; simpl in H; try discriminate.
  exists a. split; [reflexivity | exact H].
Qed.

(** Peels the successful calls off a chain of binds that ends in [Ok]. *)
Ltac peel H :=
  repeat (lazy zeta in H;
          apply bind_ok in H;
          let x := fresh "x" in
          let Hx := fresh "Hx" in
          destruct H as (x & Hx & H)).

(** A field of a built document, by its path. *)
Definition field (doc : pyval) (path : list string) : pyval := _safe_get doc path VNone.

(** C9: in every document the builder returns, the stored classification
    is [classify_impact] of the stored [citations_per_year]. *)
Theorem classification_consistent :
  forall current_year work crossref unpaywall doc,
    build_paper_document current_year work crossref unpaywall = Ok doc ->
    exists tier,
      field doc ["impact"; "classification"] = VStr tier /\
      classify_impact (field doc ["impact"; "citations_per_year"]) = Ok tier.
Proof.
  intros cy work crossref unpaywall doc H.
  unfold build_paper_document in H. peel H.
  injection H as <-.
  match goal with
  | Hc : classify_impact (VFloat ?s) = Ok ?t |- _ => exists t; split; [reflexivity | exact Hc]
  end.
Qed.

(** A catalog record as the pipeline meets them. *)
Definition sample_work : pyval :=
  VDict [("id", VStr "https://openalex.org/W1");
         ("title", VStr "Soil carbon under drought");
         ("cited_by_count", VInt 12);
         ("publication_year", VInt 2024);
         ("abstract_inverted_index",
           VDict [("We", VList [VInt 0]);
                  ("study", VList [VInt 2]);
                  ("soils", VList [VInt 1])])].

Definition sample_doc : pyval :=
  Eval vm_compute in
    match build_paper_document 2026 sample_work VNone VNone with
    | Ok doc => doc
    | _ => VNone
    end.

Lemma classification_consistent_witness :
  exists tier,
    field sample_doc ["impact"; "classification"] = VStr tier /\
    classify_impact (field sample_doc ["impact"; "citations_per_year"]) = Ok tier.
Proof.
  apply (classification_consistent 2026 sample_work VNone VNone sample_doc).
  vm_compute. reflexivity.
Defined.

(** The coercion of the count has no failing path: every exception of
    [float] is caught. *)
Lemma impact_citations_total : forall c, exists v, impact_citations c = Ok v.
Proof.
  intros c. unfold impact_citations.
  destruct c as [| b | z | f | s | l | d]; simpl; eauto.
  - unfold Num.float_of_int. destruct (Num.round64 (inject_Z z)); simpl; eauto.
  - destruct (Num.float_of_string s); simpl; eauto.
Qed.

(** The scorer returns whenever the age converts to a float, as every
    age up to 2^53 does; the divisor is at least 1. *)
Lemma impact_score_total : forall current_year citations publication_year,
  impact_age current_year publication_year <= 2 ^ 53 ->
  exists score, impact_score current_year citations publication_year = Ok score.
Proof.
  intros cy c y Hage. unfold impact_score.
  destruct (impact_citations_total c) as [v ->]. simpl.
  pose proof (impact_age_pos cy y) as Hpos.
  unfold Num.fdiv_int. rewrite float_of_int_exact by lia. simpl.
  unfold Num.fdiv.
  assert (Hq : Qeq_bool (inject_Z (impact_age cy y)) 0 = false).
  { destruct (Qeq_bool _ 0) eqn:E; [| reflexivity].
    apply Qeq_bool_iff in E. unfold Qeq in E. simpl in E. lia. }
  rewrite Hq. eauto.
Qed.

(** A record whose citation count is a word instead of a number. *)
Definition malformed_count_work : pyval :=
  VDict [("id", VStr "https://openalex.org/W2");
         ("title", VStr "Litter decomposition");
         ("cited_by_count", VStr "many");
         ("publication_year", VInt 2020)].

(** C1: on a record whose citation count is not a number the scorer
    degrades to 0.0, but the builder then raises [ValueError] from its own
    unguarded [int(citations)]. *)
Theorem builder_raises_on_malformed_count :
  impact_score 2026 (VStr "many") (VInt 2020) = Ok (FNum 0) /\
  build_paper_document 2026 malformed_count_work VNone VNone = Raise ValueError.
Proof. split; vm_compute; reflexivity. Qed.




(** C8, as it is worded, fails on a negative count: the count is coerced
    with [float] and nothing clamps it, so the stored rate is negative. *)
Lemma negative_count_gives_negative_rate :
  exists doc q,
    build_paper_document 2026
      (VDict [("id", VStr "https://openalex.org/W3");
              ("cited_by_count", VInt (-3));
              ("publication_year", VInt 2026)]) VNone VNone = Ok doc /\
    field doc ["impact"; "citations_per_year"] = VFloat (FNum q) /\
    (q < 0)%Q.
Proof.
  eexists. eexists. split; [vm_compute; reflexivity |].
  split; [vm_compute; reflexivity |]. vm_compute. reflexivity.
Qed.

(** C8, amended: a count that [float] rejects is coerced to 0.0, a
    count that [float] accepts is used as [float] returns it, and the
    rate is that value divided by the age.  So the rate of a rejected
    count is 0.0, the rate of a non-negative count is not negative, and
    the rate of a negative count is not positive: nothing clamps it, and
    a count of -1 or below gives a negative rate for every age up to
    2^53. *)
Theorem impact_score_sign :
  forall current_year citations publication_year,
    (forall e, float citations = Raise e -> impact_citations citations = Ok (FNum 0)) /\
    (forall v, float citations = Ok v -> impact_citations citations = Ok v) /\
    (forall v, impact_citations citations = Ok v ->
       impact_score current_year citations publication_year =
       Num.fdiv_int v (impact_age current_year publication_year)) /\
    (forall q a,
       impact_citations citations = Ok (FNum q) ->
       Num.float_of_int (impact_age current_year publication_year) = Ok a ->
       exists s,
         impact_score current_year citations publication_year = Ok s /\
         ((0 <= q)%Q -> Num.flt s (FNum 0) = false) /\
         ((q <= 0)%Q -> Num.fgt s (FNum 0) = false) /\
         ((q == 0)%Q -> s = FNum 0)) /\
    (forall q,
       impact_citations citations = Ok (FNum q) -> (q <= -1)%Q ->
       impact_age current_year publication_year <= 2 ^ 53 ->
       exists s,
         impact_score current_year citations publication_year = Ok s /\
         Num.flt s (FNum 0) = true).
Proof.
  intros cy c y. split; [| split; [| split; [| split]]].
  - intros e He. unfold impact_citations. rewrite He. reflexivity.
  - intros v Hv. unfold impact_citations. rewrite Hv. reflexivity.
  - intros v Hv. unfold impact_score. rewrite Hv. reflexivity.
  - intros q a Hq Ha.
    destruct (fdiv_int_num q _ a (impact_age_pos cy y) Ha) as (A & -> & HA & Hs).
    exists (Num.round64 (q / A)). split.
    + unfold impact_score. rewrite Hq. simpl. exact Hs.
    + assert (Hinv : (0 < / A)%Q) by (apply Qinv_lt_0_compat; lra).
      split; [| split].
      * intros H0. unfold Num.flt. rewrite <- (round64_zero 0%Q) by reflexivity.
        apply round64_mono. unfold Qdiv. apply Qmult_le_0_compat; lra.
      * intros H0. rewrite <- (round64_zero 0%Q) by reflexivity.
        apply round64_mono. unfold Qdiv.
        setoid_replace 0%Q with (0 * / A)%Q by ring.
        apply Qmult_le_compat_r; lra.
      * intros H0. apply round64_zero. rewrite H0. unfold Qdiv. ring.
  - intros q Hq Hneg Hage. pose proof (impact_age_pos cy y) as Hpos.
    exists (Num.round64 (q / inject_Z (impact_age cy y))). split.
    + unfold impact_score. rewrite Hq. simpl. apply fdiv_int_exact. lia.
    + unfold Num.flt.
      apply (round64_under (inject_Z (-1) / inject_Z (2 ^ 53)) (-1 # 2 ^ 53));
        [vm_compute; reflexivity | | reflexivity].
      apply Qle_trans with (inject_Z (-1) / inject_Z (impact_age cy y))%Q.
      * apply Qdiv_le; [| exact Hneg].
        change 1%Q with (inject_Z 1). rewrite <- Zle_Qle. exact Hpos.
      * apply Zdiv_Qle; lia.
Qed.

Lemma impact_score_sign_witness :
  impact_citations (VStr "many") = Ok (FNum 0) /\
  impact_citations (VInt (-3)) = Ok (FNum (inject_Z (-3))) /\
  (exists s, impact_score 2026 (VInt (-3)) (VInt 2020) = Ok s /\
             ((0 <= inject_Z (-3))%Q -> Num.flt s (FNum 0) = false) /\
             ((inject_Z (-3) <= 0)%Q -> Num.fgt s (FNum 0) = false) /\
             ((inject_Z (-3) == 0)%Q -> s = FNum 0)) /\
  (exists s, impact_score 2026 (VInt (-3)) (VInt 2020) = Ok s /\
             Num.flt s (FNum 0) = true).
Proof.
  pose proof (impact_score_sign 2026 (VStr "many") (VInt 2020)) as (Hbad & _).
  pose proof (impact_score_sign 2026 (VInt (-3)) (VInt 2020))
    as (_ & Hgood & _ & Hsign & Hstrict).
  split; [| split; [| split]].
  - apply (Hbad ValueError). reflexivity.
  - apply Hgood. reflexivity.
  - apply (Hsign (inject_Z (-3)) (FNum (inject_Z 7))); reflexivity.
  - apply (Hstrict (inject_Z (-3))); [reflexivity | | ]; vm_compute; discriminate.
Defined.

(** ** The upsert loop *)

Lemma pyfloat_eqb_refl : forall f, pyfloat_eqb f f = true.
Proof.
  intros [q | b |]; simpl.
  - apply Qeq_bool_iff. reflexivity.
  - apply Bool.eqb_reflx.
  - reflexivity.
Qed.

Lemma pyval_eqb_refl : forall v, pyval_eqb v v = true.
Proof.
  fix IH 1. intros [| b | z | f | s | l | d]; simpl.
  - reflexivity.
  - apply Bool.eqb_reflx.
  - apply Z.eqb_refl.
  - apply pyfloat_eqb_refl.
  - apply String.eqb_refl.
  - induction l as [| a l IHl]; [reflexivity |].
    rewrite IH, IHl. reflexivity.
  - induction d as [| [k a] d IHd]; [reflexivity |].
    rewrite String.eqb_refl, IH, IHd. reflexivity.
Qed.

Lemma pydict_eqb_refl : forall d, pydict_eqb d d = true.
Proof. intros d. apply (pyval_eqb_refl (VDict d)). Qed.

(** [doc.get('_id')] *)
Definition doc_id (doc : pydict) : pyval :=
  match lookup "_id" doc with Some v => v | None => VNone end.

Definition empty_collection : Store.collection :=
  {| Store.documents := []; Store.faults := []; Store.applied := [] |}.

Lemma upsert_loop_app : forall pre post st,
  upsert_loop (pre ++ post)%list st = upsert_loop post (upsert_loop pre st).
Proof.
  induction pre as [| doc pre IH]; intros post st; simpl; [reflexivity | apply IH].
Qed.

Lemma upsert_one_skips : forall doc st,
  truthy (doc_id doc) = false -> upsert_one doc st = st.
Proof.
  intros doc st H. unfold upsert_one. fold (doc_id doc). rewrite H. reflexivity.
Qed.

(** C10: a document whose [_id] is absent or falsy is skipped: the run
    (store, both counters, reported failures) is left as it was, and the
    batch gives what it gives without that document. *)
Theorem falsy_id_is_skipped :
  forall doc,
    truthy (doc_id doc) = false ->
    (forall st, upsert_one doc st = st) /\
    (forall pre post coll,
       upsert_to_db (pre ++ doc :: post)%list coll = upsert_to_db (pre ++ post)%list coll).
Proof.
  intros doc H. split.
  - intros st. apply upsert_one_skips. exact H.
  - intros pre post coll. unfold upsert_to_db.
    rewrite !upsert_loop_app. simpl.
    rewrite upsert_one_skips by exact H. reflexivity.
Qed.

Definition paper_a : pydict := [("_id", VStr "W1"); ("title", VStr "Soil carbon")].
Definition paper_b : pydict := [("_id", VStr "W2"); ("title", VStr "Litter")].
Definition paper_c : pydict := [("_id", VStr "W3"); ("title", VStr "Root traits")].
Definition paper_without_id : pydict := [("_id", VStr ""); ("title", VStr "Untitled")].

Lemma falsy_id_is_skipped_witness :
  (forall st, upsert_one paper_without_id st = st) /\
  (forall pre post coll,
     upsert_to_db (pre ++ paper_without_id :: post)%list coll =
     upsert_to_db (pre ++ post)%list coll).
Proof. apply (falsy_id_is_skipped paper_without_id). reflexivity. Defined.

Lemma find_put_same : forall _id doc docs old,
  Store.find _id docs = Some old -> Store.find _id (Store.put _id doc docs) = Some doc.
Proof.
  intros _id doc docs. induction docs as [| [k d] docs IH]; intros old H; simpl in *.
  - discriminate.
  - destruct (pyval_eqb k _id) eqn:E; simpl; rewrite E; [reflexivity | eauto].
Qed.

(** First upsert of a record into the empty collection. *)
Lemma first_upsert : forall doc,
  truthy (doc_id doc) = true ->
  upsert_to_db [doc] empty_collection =
  {| store := {| Store.documents := [(doc_id doc, doc)]; Store.faults := []; Store.applied := [] |};
     inserted := 1; updated := 0; reported := [] |}.
Proof.
  intros doc H. unfold upsert_to_db. simpl. unfold upsert_one.
  fold (doc_id doc). rewrite H. simpl. rewrite H. reflexivity.
Qed.

(** An upsert over the record stored alone under the same id. *)
Lemma second_upsert : forall doc doc',
  truthy (doc_id doc) = true -> doc_id doc' = doc_id doc ->
  upsert_to_db [doc']
    {| Store.documents := [(doc_id doc, doc)]; Store.faults := []; Store.applied := [] |} =
  {| store := {| Store.documents := [(doc_id doc, doc')]; Store.faults := []; Store.applied := [] |};
     inserted := 0;
     updated := if pydict_eqb doc doc' then 0 else 1;
     reported := [] |}.
Proof.
  intros doc doc' H Hid. unfold upsert_to_db. simpl. unfold upsert_one.
  fold (doc_id doc'). rewrite Hid, H. simpl.
  unfold Store.replace_one. simpl. rewrite pyval_eqb_refl. simpl.
  destruct (pydict_eqb doc doc'); reflexivity.
Qed.

(** C6, as it is worded, fails: the second upsert of the same record
    replaces a document by an equal one, the store reports no
    modification, and [updated] stays at 0. *)
Lemma same_record_twice_is_not_updated :
  ~ (forall doc,
       truthy (doc_id doc) = true ->
       returned (upsert_to_db [doc] (store (upsert_to_db [doc] empty_collection))) = (0, 1)).
Proof.
  intros H. specialize (H paper_a eq_refl). vm_compute in H. discriminate.
Qed.

(** C6, amended: the first upsert of a record into the empty collection
    counts one insertion; upserting the same record again counts neither an
    insertion nor an update, and a record under the same id is counted as
    updated exactly when it differs from the stored one; either way the
    collection holds one document under that id, the last one written. *)
Theorem upsert_twice :
  forall doc,
    truthy (doc_id doc) = true ->
    let first := upsert_to_db [doc] empty_collection in
    returned first = (1, 0) /\
    Store.documents (store first) = [(doc_id doc, doc)] /\
    returned (upsert_to_db [doc] (store first)) = (0, 0) /\
    Store.documents (store (upsert_to_db [doc] (store first))) = [(doc_id doc, doc)] /\
    returned (upsert_to_db [doc; doc] empty_collection) = (1, 0) /\
    (forall doc',
       doc_id doc' = doc_id doc ->
       returned (upsert_to_db [doc'] (store first)) =
         (0, if pydict_eqb doc doc' then 0 else 1) /\
       Store.documents (store (upsert_to_db [doc'] (store first))) = [(doc_id doc, doc')]).
Proof.
  intros doc H first. subst first. rewrite (first_upsert doc H). simpl.
  rewrite (second_upsert doc doc H eq_refl), pydict_eqb_refl.
  repeat split.
  - change [doc; doc] with ([doc] ++ [doc])%list.
    unfold upsert_to_db. rewrite upsert_loop_app.
    fold (upsert_to_db [doc] empty_collection). rewrite (first_upsert doc H).
    simpl. unfold upsert_one. fold (doc_id doc). rewrite H. simpl.
    unfold Store.replace_one. simpl. rewrite pyval_eqb_refl. simpl.
    rewrite pydict_eqb_refl. reflexivity.
  - rewrite (second_upsert doc doc' H H0). reflexivity.
  - rewrite (second_upsert doc doc' H H0). reflexivity.
Qed.

Lemma upsert_twice_witness :
  let first := upsert_to_db [paper_a] empty_collection in
  returned first = (1, 0) /\
  Store.documents (store first) = [(doc_id paper_a, paper_a)] /\
  returned (upsert_to_db [paper_a] (store first)) = (0, 0) /\
  Store.documents (store (upsert_to_db [paper_a] (store first))) =
    [(doc_id paper_a, paper_a)] /\
  returned (upsert_to_db [paper_a; paper_a] empty_collection) = (1, 0) /\
  (forall doc',
     doc_id doc' = doc_id paper_a ->
     returned (upsert_to_db [doc'] (store first)) =
       (0, if pydict_eqb paper_a doc' then 0 else 1) /\
     Store.documents (store (upsert_to_db [doc'] (store first))) =
       [(doc_id paper_a, doc')]).
Proof. apply (upsert_twice paper_a). reflexivity. Defined.

(** A round on which the store fails: whatever the collection holds
    after the failed call, neither counter moves and the id is printed. *)
Lemma upsert_one_fault : forall doc st later,
  truthy (doc_id doc) = true ->
  Store.faults (store st) = true :: later ->
  upsert_one doc st =
  {| store := fst (Store.replace_one (store st) (doc_id doc) doc);
     inserted := inserted st;
     updated := updated st;
     reported := (reported st ++ [doc_id doc])%list |}.
Proof.
  intros doc st later H Hf. unfold upsert_one. fold (doc_id doc). rewrite H. simpl.
  unfold Store.replace_one. rewrite Hf. reflexivity.
Qed.

Lemma upsert_one_insert : forall doc st,
  truthy (doc_id doc) = true ->
  hd false (Store.faults (store st)) = false ->
  Store.find (doc_id doc) (Store.documents (store st)) = None ->
  upsert_one doc st =
  {| store := {| Store.documents :=
                   (Store.documents (store st) ++ [(doc_id doc, doc)])%list;
                 Store.faults := tl (Store.faults (store st));
                 Store.applied := Store.applied (store st) |};
     inserted := inserted st + 1;
     updated := updated st;
     reported := reported st |}.
Proof.
  intros doc st H Hf Hnew. unfold upsert_one. fold (doc_id doc). rewrite H. simpl.
  unfold Store.replace_one. rewrite Hnew.
  destruct (Store.faults (store st)) as [| [|] later]; simpl in *;
    try discriminate; rewrite H; reflexivity.
Qed.

(** C7, as it is worded, fails on the report: the function returns the
    pair (inserted, updated) only; a run with a failed record and a run
    without any return the same pair. *)
Lemma returned_pair_hides_failures :
  let stored := {| Store.documents := [(doc_id paper_a, paper_a)];
                   Store.faults := []; Store.applied := [] |} in
  let failing := {| Store.documents := [(doc_id paper_a, paper_a)];
                    Store.faults := [true]; Store.applied := [] |} in
  returned (upsert_to_db [paper_a] stored) = returned (upsert_to_db [paper_a] failing) /\
  reported (upsert_to_db [paper_a] stored) = [] /\
  reported (upsert_to_db [paper_a] failing) = [doc_id paper_a].
Proof. vm_compute. repeat split. Qed.

(** C7, amended: when the store raises on a record, both counters stay
    as they were, the record's id is printed as a failure, and the loop
    goes on with the rest of the batch on whatever the store holds after
    its failed call; with a failure on the second of three records under
    distinct ids into the empty collection, the first and the third are
    stored and counted and one failure is printed, whether or not the
    failed write had reached the collection.  The returned pair carries
    no count of failures. *)
Theorem store_failure_is_isolated :
  (forall doc rest st later,
     truthy (doc_id doc) = true ->
     Store.faults (store st) = true :: later ->
     upsert_loop (doc :: rest) st =
     upsert_loop rest
       {| store := fst (Store.replace_one (store st) (doc_id doc) doc);
          inserted := inserted st;
          updated := updated st;
          reported := (reported st ++ [doc_id doc])%list |}) /\
  (forall d1 d2 d3 landed,
     truthy (doc_id d1) = true -> truthy (doc_id d2) = true ->
     truthy (doc_id d3) = true ->
     pyval_eqb (doc_id d1) (doc_id d2) = false ->
     pyval_eqb (doc_id d1) (doc_id d3) = false ->
     pyval_eqb (doc_id d2) (doc_id d3) = false ->
     let r := upsert_to_db [d1; d2; d3]
                {| Store.documents := [];
                   Store.faults := [false; true; false];
                   Store.applied := landed |} in
     Store.find (doc_id d1) (Store.documents (store r)) = Some d1 /\
     Store.find (doc_id d3) (Store.documents (store r)) = Some d3 /\
     returned r = (2, 0) /\
     reported r = [doc_id d2]).
Proof.
  split.
  - intros doc rest st later H Hf. simpl.
    rewrite (upsert_one_fault doc st later H Hf). reflexivity.
  - intros d1 d2 d3 landed H1 H2 H3 N12 N13 N23 r. subst r.
    unfold upsert_to_db. cbn [upsert_loop].
    rewrite (upsert_one_insert d1) by (try exact H1; reflexivity).
    cbn [store Store.faults Store.documents Store.applied
         inserted updated reported tl app].
    rewrite (upsert_one_fault d2 _ [false]) by (try exact H2; reflexivity).
    unfold Store.replace_one, Store.write.
    cbn [store Store.faults Store.documents Store.applied
         inserted updated reported tl app fst Store.find].
    rewrite N12.
    destruct (hd false landed);
      (rewrite (upsert_one_insert d3);
       cbn [store Store.faults Store.documents Store.applied
            inserted updated reported tl hd app Store.find];
       rewrite ?N12, ?N13, ?N23, ?pyval_eqb_refl;
       [ repeat split | exact H3 | reflexivity | reflexivity ]).
Qed.

Lemma store_failure_is_isolated_witness :
  upsert_loop [paper_b; paper_c]
    {| store := {| Store.documents := [(doc_id paper_a, paper_a)];
                   Store.faults := [true]; Store.applied := [true] |};
       inserted := 1; updated := 0; reported := [] |} =
  upsert_loop [paper_c]
    {| store := {| Store.documents := [(doc_id paper_a, paper_a); (doc_id paper_b, paper_b)];
                   Store.faults := []; Store.applied := [] |};
       inserted := 1; updated := 0; reported := [doc_id paper_b] |} /\
  (let r := upsert_to_db [paper_a; paper_b; paper_c]
              {| Store.documents := [];
                 Store.faults := [false; true; false];
                 Store.applied := [true] |} in
   Store.find (doc_id paper_a) (Store.documents (store r)) = Some paper_a /\
   Store.find (doc_id paper_c) (Store.documents (store r)) = Some paper_c /\
   returned r = (2, 0) /\
   reported r = [doc_id paper_b]).
Proof.
  destruct store_failure_is_isolated as [Hstep Hbatch]. split.
  - apply (Hstep paper_b [paper_c]
             {| store := {| Store.documents := [(doc_id paper_a, paper_a)];
                            Store.faults := [true]; Store.applied := [true] |};
                inserted := 1; updated := 0; reported := [] |} []);
      reflexivity.
  - apply (Hbatch paper_a paper_b paper_c [true]); reflexivity.
Defined.

(** ** Identifier normalization *)

(** A string [str.lower] leaves as it is. *)
Fixpoint lowered (s : string) : Prop :=
  match s with
  | EmptyString => True
  | String c s' => Str.lower_char c = c /\ lowered s'
  end.

Lemma lower_char_idem : forall c, Str.lower_char (Str.lower_char c) = Str.lower_char c.
Proof. intros [[] [] [] [] [] [] [] []]; reflexivity. Qed.

Lemma lowered_lower : forall s, lowered (Str.lower s).
Proof.
  induction s as [| c s IH]; simpl; [exact I | split; [apply lower_char_idem | exact IH]].
Qed.

Lemma lowered_fixed : forall s, lowered s -> Str.lower s = s.
Proof.
  induction s as [| c s IH]; simpl; [reflexivity |].
  intros [Hc Hs]. rewrite Hc, (IH Hs). reflexivity.
Qed.

Lemma lowered_lstrip : forall sp s, lowered s -> lowered (Str.lstrip_by sp s).
Proof.
  intros sp. induction s as [| c s IH]; simpl; [trivial |].
  intros [Hc Hs]. destruct (sp c); simpl; auto.
Qed.

Lemma lowered_rstrip : forall sp s, lowered s -> lowered (Str.rstrip_by sp s).
Proof.
  intros sp. induction s as [| c s IH]; simpl; [trivial |].
  intros [Hc Hs]. specialize (IH Hs).
  destruct (Str.rstrip_by sp s) as [| a r]; [destruct (sp c) |]; simpl in *; auto.
Qed.

Lemma lowered_replace : forall old s skip,
  lowered s -> lowered (Str.replace_from old "" skip s).
Proof.
  intros old. induction s as [| c s IH]; intros skip Hl; [exact I |].
  destruct Hl as [Hc Hs]. cbn [Str.replace_from].
  destruct skip as [| k]; [| apply IH; exact Hs].
  destruct (prefix old (String c s)).
  - change (lowered (Str.replace_from old "" (String.length old - 1) s)).
    apply IH. exact Hs.
  - split; [exact Hc | apply IH; exact Hs].
Qed.

Lemma lowered_normalize : forall s, lowered (normalize_str s).
Proof.
  intros s. unfold normalize_str, Str.replace, Str.strip.
  apply lowered_replace, lowered_replace, lowered_rstrip, lowered_lstrip, lowered_lower.
Qed.

(** Deleting a prefix that does not occur changes nothing. *)
Lemma replace_absent : forall old s,
  Str.occurs old s = false -> Str.replace old "" s = s.
Proof.
  intros old. unfold Str.replace.
  induction s as [| c s IH]; [reflexivity |].
  intros H. cbn [Str.occurs] in H. apply orb_false_iff in H. destruct H as [Hp Ho].
  cbn [Str.replace_from]. rewrite Hp, (IH Ho). reflexivity.
Qed.

(** A bare identifier: not empty, no whitespace at either end, no
    resolver prefix inside. *)
Definition is_bare (y : string) : bool :=
  negb (y =? "")%string && (Str.strip y =? y)%string &&
  negb (Str.occurs https_prefix y) && negb (Str.occurs http_prefix y).

Definition normalize_twice (doi : pyval) : result pyval :=
  once <- normalize_doi doi ;; normalize_doi once.

Lemma normalize_bare : forall y,
  is_bare y = true -> lowered y -> normalize_doi (VStr y) = Ok (VStr y).
Proof.
  intros y Hb Hl. unfold is_bare in Hb.
  repeat (apply andb_true_iff in Hb; destruct Hb as [Hb ?]).
  apply negb_true_iff in Hb.
  unfold normalize_doi. simpl. rewrite Hb. simpl.
  unfold normalize_str. rewrite (lowered_fixed y Hl).
  match goal with Hs : (Str.strip y =? y)%string = true |- _ =>
    apply String.eqb_eq in Hs; rewrite Hs end.
  rewrite (replace_absent https_prefix y) by (apply negb_true_iff; assumption).
  rewrite (replace_absent http_prefix y) by (apply negb_true_iff; assumption).
  reflexivity.
Qed.

(** C5, as it is worded, fails: the prefix is deleted after the
    trimming, so whitespace between prefix and identifier survives the
    first pass and is trimmed by the second. *)
Lemma normalize_twice_differs :
  ~ (forall x, normalize_twice (VStr x) = normalize_doi (VStr x)).
Proof.
  intros H. specialize (H "https://doi.org/ 10.1000/x").
  vm_compute in H. discriminate.
Qed.

(** C5, amended: absent and empty input give absent; a lowercase bare
    identifier is returned as it is; and normalizing twice equals
    normalizing once whenever the first result is bare. *)
Theorem normalize_doi_idempotent_on_bare :
  normalize_doi VNone = Ok VNone /\
  normalize_doi (VStr "") = Ok VNone /\
  (forall y, is_bare y = true -> Str.lower y = y ->
     normalize_doi (VStr y) = Ok (VStr y)) /\
  (forall x y, normalize_doi (VStr x) = Ok (VStr y) -> is_bare y = true ->
     normalize_twice (VStr x) = normalize_doi (VStr x)).
Proof.
  split; [reflexivity | split; [reflexivity | split]].
  - intros y Hb Hl. apply normalize_bare; [exact Hb |].
    rewrite <- Hl. apply lowered_lower.
  - intros x y Hx Hb. unfold normalize_twice. rewrite Hx. simpl.
    apply normalize_bare; [exact Hb |].
    unfold normalize_doi in Hx.
    destruct (negb (truthy (VStr x))); [discriminate |].
    injection Hx as <-. apply lowered_normalize.
Qed.

Lemma normalize_doi_idempotent_on_bare_witness :
  normalize_doi (VStr "10.1000/x") = Ok (VStr "10.1000/x") /\
  normalize_twice (VStr "  HTTPS://doi.org/10.1000/X ") =
  normalize_doi (VStr "  HTTPS://doi.org/10.1000/X ").
Proof.
  destruct normalize_doi_idempotent_on_bare as (_ & _ & Hbare & Htwice). split.
  - apply Hbare; reflexivity.
  - apply (Htwice _ "10.1000/x"); reflexivity.
Defined.

(** ** Abstract reconstruction *)

Section SortFacts.
Context {A : Type} (key : A -> Z).

Definition key_ltb (a b : A) : bool := key a <? key b.
Definition key_le (a b : A) : Prop := key a <= key b.

Lemma insert_sorted_perm : forall x l,
  Permutation (insert_sorted key_ltb x l) (x :: l).
Proof.
  intros x. induction l as [| y l IH]; simpl; [reflexivity |].
  destruct (key_ltb y x); [| reflexivity].
  rewrite IH. apply perm_swap.
Qed.

Lemma stable_sort_perm : forall l, Permutation (stable_sort key_ltb l) l.
Proof.
  induction l as [| x l IH]; simpl; [reflexivity |].
  rewrite insert_sorted_perm. apply perm_skip. exact IH.
Qed.

Lemma insert_sorted_sorted : forall x l,
  StronglySorted key_le l -> StronglySorted key_le (insert_sorted key_ltb x l).
Proof.
  intros x. induction l as [| y l IH]; intros Hs; simpl.
  - constructor; constructor.
  - inversion Hs as [| ? ? Hl Hall]; subst.
    unfold key_ltb at 1. destruct (Z.ltb_spec (key y) (key x)) as [Hlt | Hge].
    + constructor; [apply IH; exact Hl |].
      assert (Hxl : Forall (key_le y) (x :: l))
        by (constructor; [unfold key_le; lia | exact Hall]).
      revert Hxl. apply Permutation_Forall.
      symmetry. apply insert_sorted_perm.
    + constructor; [exact Hs |].
      constructor; [exact Hge |].
      eapply Forall_impl; [| exact Hall].
      intros a Ha. unfold key_le in *. lia.
Qed.

Lemma stable_sort_sorted : forall l, StronglySorted key_le (stable_sort key_ltb l).
Proof.
  induction l as [| x l IH]; simpl; [constructor |].
  apply insert_sorted_sorted. exact IH.
Qed.
End SortFacts.

(** Sorting commutes with a renaming of the elements that keeps the
    comparison. *)
Lemma stable_sort_map : forall (A B : Type) (f : A -> B)
    (lt : A -> A -> bool) (lt' : B -> B -> bool),
  (forall a b, lt' (f a) (f b) = lt a b) ->
  forall l, stable_sort lt' (map f l) = map f (stable_sort lt l).
Proof.
  intros A B f lt lt' Hlt. induction l as [| x l IH]; simpl; [reflexivity |].
  rewrite IH. generalize (stable_sort lt l) as s.
  induction s as [| y s IHs]; simpl; [reflexivity |].
  rewrite Hlt. destruct (lt y x); simpl; [rewrite IHs |]; reflexivity.
Qed.

(** A well-formed inverted index: each word with its integer positions. *)
Definition index_of (d : list (string * list Z)) : pyval :=
  VDict (map (fun e => (fst e, VList (map VInt (snd e)))) d).

(** One (position, word) pair per occurrence, in the order of the index. *)
Definition occurrences (d : list (string * list Z)) : list (Z * string) :=
  flat_map (fun e => map (fun p => (p, fst e)) (snd e)) d.

Definition as_key (o : Z * string) : pyval * string := (VInt (fst o), snd o).

Lemma key_lt_int : forall a b, key_lt (VInt a) (VInt b) = (a <? b).
Proof.
  intros a b. unfold key_lt, key_number, Num.flt, Num.fgt.
  destruct (Z.ltb_spec a b) as [Hlt | Hge].
  - apply negb_true_iff, Qle_bool_false. unfold Qlt. simpl. lia.
  - apply negb_false_iff, Qle_bool_iff. unfold Qle. simpl. lia.
Qed.

Lemma mapM_occurrences : forall d,
  mapM occurrences_of (map (fun e => (fst e, VList (map VInt (snd e)))) d) =
  Ok (map (fun e => map as_key (map (fun p => (p, fst e)) (snd e))) d).
Proof.
  induction d as [| [w ps] d IH]; simpl; [reflexivity |].
  rewrite IH. simpl. rewrite !map_map. reflexivity.
Qed.

Lemma concat_occurrences : forall d,
  concat (map (fun e => map as_key (map (fun p => (p, fst e)) (snd e))) d) =
  map as_key (occurrences d).
Proof.
  induction d as [| e d IH]; simpl; [reflexivity |].
  rewrite IH, map_app. reflexivity.
Qed.

Lemma int_keys_are_numbers : forall l,
  forallb is_number_key (map fst (map as_key l)) = true.
Proof. induction l as [| a l IH]; [reflexivity | exact IH]. Qed.

Lemma sort_by_position_ints : forall l,
  sort_by_position (map as_key l) =
  Ok (map as_key (stable_sort (key_ltb fst) l)).
Proof.
  intros l.
  assert (Hsort :
    stable_sort (fun a b => key_lt (fst a) (fst b)) (map as_key l) =
    map as_key (stable_sort (key_ltb fst) l)).
  { apply stable_sort_map. intros a b. apply key_lt_int. }
  destruct l as [| a [| b l]]; [reflexivity | reflexivity |].
  unfold sort_by_position.
  change (map as_key (a :: b :: l)) with (as_key a :: as_key b :: map as_key l) in *.
  pose proof (int_keys_are_numbers (a :: b :: l)) as Hnum.
  change (map as_key (a :: b :: l)) with (as_key a :: as_key b :: map as_key l) in Hnum.
  rewrite Hnum. simpl orb. cbv iota. rewrite Hsort. reflexivity.
Qed.

Lemma reconstruct_index : forall d,
  _reconstruct_abstract (index_of d) =
  Ok (Str.join " " (map snd (stable_sort (key_ltb fst) (occurrences d)))).
Proof.
  intros d. destruct d as [| e d]; [reflexivity |].
  unfold _reconstruct_abstract, index_of.
  change (negb (truthy (VDict (map (fun e0 => (fst e0, VList (map VInt (snd e0)))) (e :: d)))))
    with false. cbv iota.
  rewrite mapM_occurrences. cbn [bind].
  rewrite concat_occurrences, sort_by_position_ints. cbn [bind].
  rewrite map_map. reflexivity.
Qed.

(** [work.get('abstract')] of a catalog record. *)
Definition plain_abstract (w : pydict) : pyval :=
  match lookup "abstract" w with Some a => a | None => VNone end.

(** C4: from an inverted index the abstract is rebuilt from one
    (position, word) pair per occurrence, sorted by ascending position,
    the words joined by single spaces; a record with no plain abstract
    gets that text as its abstract whenever it is not empty; and the index
    We:[0], study:[2], soils:[1] gives "We soils study". *)
Theorem abstract_rebuilt_from_index :
  (forall d,
     exists ws,
       Permutation ws (occurrences d) /\
       StronglySorted (fun a b => fst a <= fst b) ws /\
       _reconstruct_abstract (index_of d) = Ok (Str.join " " (map snd ws))) /\
  (forall current_year w crossref unpaywall doc d text,
     build_paper_document current_year (VDict w) crossref unpaywall = Ok doc ->
     truthy (plain_abstract w) = false ->
     lookup "abstract_inverted_index" w = Some (index_of d) ->
     _reconstruct_abstract (index_of d) = Ok text ->
     text <> "" ->
     field doc ["content"; "abstract"] = VStr text) /\
  _reconstruct_abstract (index_of [("We", [0]); ("study", [2]); ("soils", [1])]) =
    Ok "We soils study" /\
  build_paper_document 2026 sample_work VNone VNone = Ok sample_doc /\
  field sample_doc ["content"; "abstract"] = VStr "We soils study".
Proof.
  split; [| split; [| split; [| split]]];
    [| | vm_compute; reflexivity | vm_compute; reflexivity | vm_compute; reflexivity].
  - intros d. exists (stable_sort (key_ltb fst) (occurrences d)).
    split; [apply stable_sort_perm |].
    split; [apply (stable_sort_sorted (@fst Z string)) | apply reconstruct_index].
  - intros cy w crossref unpaywall doc d text H Hplain Hindex Htext Hne.
    unfold build_paper_document in H. peel H.
    injection H as <-.
    match goal with
    | Ha : or_else ?plain _ = Ok ?a,
      Hp : get (VDict w) "abstract" = Ok ?plain |- _ =>
        unfold get, get_or in Hp; injection Hp as <-;
        fold (plain_abstract w) in Ha;
        unfold or_else at 1 in Ha; rewrite Hplain in Ha;
        unfold get at 1, get_or in Ha; rewrite Hindex in Ha;
        cbn [bind] in Ha; rewrite Htext in Ha; cbn [bind] in Ha;
        unfold or_else in Ha
    end.
    assert (Ht : truthy (VStr text) = true).
    { simpl. destruct (String.eqb_spec text ""); [contradiction | reflexivity]. }
    match goal with
    | Ha : (if truthy (VStr text) then _ else _) = Ok _ |- _ =>
        rewrite Ht in Ha; injection Ha as <-
    end.
    destruct text; [contradiction | reflexivity].
Qed.

Lemma abstract_rebuilt_from_index_witness :
  field sample_doc ["content"; "abstract"] = VStr "We soils study".
Proof.
  destruct abstract_rebuilt_from_index as (_ & Hdoc & _).
  apply (Hdoc 2026
           [("id", VStr "https://openalex.org/W1");
            ("title", VStr "Soil carbon under drought");
            ("cited_by_count", VInt 12);
            ("publication_year", VInt 2024);
            ("abstract_inverted_index",
              index_of [("We", [0]); ("study", [2]); ("soils", [1])])]
           VNone VNone sample_doc
           [("We", [0]); ("study", [2]); ("soils", [1])]
           "We soils study").
  - vm_compute. reflexivity.
  - reflexivity.
  - reflexivity.
  - vm_compute. reflexivity.
  - discriminate.
Defined.

(** * Further properties of the builder *)

(** [w.get(k)] on a dict. *)
Definition entry (w : pydict) (k : string) : pyval :=
  match lookup k w with Some v => v | None => VNone end.

Lemma get_dict : forall w k, get (VDict w) k = Ok (entry w k).
Proof. reflexivity. Qed.

Lemma get_ok_dict : forall work k v, get work k = Ok v -> exists w, work = VDict w.
Proof.
  intros work k v H. destruct work; try discriminate. eexists. reflexivity.
Qed.

Lemma none_default : forall v, match v with VNone => VNone | _ => v end = v.
Proof. intros []; reflexivity. Qed.

Lemma truthy_not_none : forall v, truthy v = true -> v <> VNone.
Proof. intros v H ->. discriminate. Qed.

Lemma or_truthy : forall a b, truthy b = true -> truthy (or_ a b) = true.
Proof. intros a b Hb. unfold or_. destruct (truthy a) eqn:E; assumption. Qed.

Lemma or_empty_truthy : forall a, truthy (or_ a (VStr "")) = truthy a.
Proof. intros a. unfold or_. destruct (truthy a) eqn:E; [exact E | reflexivity]. Qed.

Lemma or_empty_not_none : forall a, or_ a (VStr "") <> VNone.
Proof.
  intros a. unfold or_. destruct (truthy a) eqn:E; [| discriminate].
  apply truthy_not_none. exact E.
Qed.

Lemma or_else_ok : forall a b v,
  or_else a b = Ok v -> (truthy a = true /\ v = a) \/ (truthy a = false /\ b = Ok v).
Proof.
  intros a b v H. unfold or_else in H. destruct (truthy a).
  - left. injection H as <-. split; reflexivity.
  - right. split; [reflexivity | exact H].
Qed.

Lemma take_length : forall n s, (String.length (Str.take n s) <= n)%nat.
Proof.
  induction n as [| n IH]; intros s; simpl; [lia |].
  destruct s as [| c s]; simpl; [lia |]. specialize (IH s). lia.
Qed.

(** A work payload that is not a dict has no [get]: the builder raises
    on its first line. *)
Theorem builder_needs_a_dict :
  forall current_year work crossref unpaywall,
    (forall w, work <> VDict w) ->
    build_paper_document current_year work crossref unpaywall = Raise AttributeError.
Proof.
  intros cy work crossref unpaywall H.
  destruct work; try reflexivity. exfalso. exact (H d eq_refl).
Qed.

Lemma builder_needs_a_dict_witness :
  build_paper_document 2026 (VList [VStr "W1"]) VNone VNone = Raise AttributeError.
Proof. apply builder_needs_a_dict. intros w. discriminate. Defined.

(** The stored status is [pending_download] exactly when the stored
    [pdf_url] is non-empty, [no_pdf_available] otherwise. *)
Theorem status_follows_pdf_url :
  forall current_year work crossref unpaywall doc,
    build_paper_document current_year work crossref unpaywall = Ok doc ->
    field doc ["processing_status"] =
    VStr (if truthy (field doc ["open_access"; "pdf_url"])
          then "pending_download" else "no_pdf_available").
Proof.
  intros cy work crossref unpaywall doc H.
  unfold build_paper_document in H. peel H. injection H as <-.
  unfold field. cbn [_safe_get lookup String.eqb Ascii.eqb Bool.eqb].
  rewrite none_default, or_empty_truthy. reflexivity.
Qed.

Lemma status_follows_pdf_url_witness :
  field sample_doc ["processing_status"] =
  VStr (if truthy (field sample_doc ["open_access"; "pdf_url"])
        then "pending_download" else "no_pdf_available").
Proof.
  apply (status_follows_pdf_url 2026 sample_work VNone VNone sample_doc).
  vm_compute. reflexivity.
Defined.

(** The last operand of the id chain is a non-empty string, so the
    chain always ends on a truthy value. *)
Lemma work_id_truthy : forall a b title v,
  or_else a
    (or_else b (excerpt <- format_prefix 80 title ;; Ok (VStr ("auto:" ++ excerpt)))) =
  Ok v ->
  truthy v = true.
Proof.
  intros a b title v H.
  apply or_else_ok in H. destruct H as [[Ha ->] | [_ H]]; [exact Ha |].
  apply or_else_ok in H. destruct H as [[Hb ->] | [_ H]]; [exact Hb |].
  apply bind_ok in H. destruct H as (excerpt & _ & H).
  injection H as <-. reflexivity.
Qed.

(** Every document the builder returns is a dict with a non-empty
    [_id]: the upsert loop never skips a built document. *)
Theorem built_id_is_truthy :
  forall current_year work crossref unpaywall doc,
    build_paper_document current_year work crossref unpaywall = Ok doc ->
    exists d, doc = VDict d /\ truthy (doc_id d) = true.
Proof.
  intros cy work crossref unpaywall doc H.
  unfold build_paper_document in H. peel H. injection H as <-.
  eexists. split; [reflexivity |].
  unfold doc_id. cbn [lookup String.eqb Ascii.eqb Bool.eqb].
  match goal with Hid : or_else ?a (or_else ?b _) = Ok ?v |- truthy ?v = true =>
    exact (work_id_truthy _ _ _ _ Hid)
  end.
Qed.

Definition sample_paper : pydict :=
  Eval vm_compute in match sample_doc with VDict d => d | _ => [] end.

Lemma built_id_is_truthy_witness :
  exists d, sample_doc = VDict d /\ truthy (doc_id d) = true.
Proof.
  apply (built_id_is_truthy 2026 sample_work VNone VNone sample_doc).
  vm_compute. reflexivity.
Defined.

(** The canonical id is the catalog's own id when it has one, else the
    normalized DOI when there is one, else ["auto:"] followed by the
    first 80 characters of a title that is a non-empty string, or by the
    placeholder when the title is empty or absent.  (A truthy title that
    is not a string is not covered: the excerpt of a list title is not
    bounded.) *)
Theorem canonical_id_priority :
  forall current_year w crossref unpaywall doc,
    build_paper_document current_year (VDict w) crossref unpaywall = Ok doc ->
    (truthy (entry w "id") = true -> field doc ["_id"] = entry w "id") /\
    (truthy (entry w "id") = false ->
     exists doi,
       normalize_doi (entry w "doi") = Ok doi /\
       (truthy doi = true -> field doc ["_id"] = doi) /\
       (truthy doi = false ->
        exists excerpt,
          field doc ["_id"] = VStr ("auto:" ++ excerpt) /\
          (forall t, entry w "title" = VStr t -> t <> "" ->
             excerpt = Str.take 80 t /\ (String.length excerpt <= 80)%nat) /\
          (truthy (entry w "title") = false -> excerpt = "<no title>"))).
Proof.
  intros cy w crossref unpaywall doc H.
  unfold build_paper_document in H. peel H. injection H as <-.
  rewrite get_dict in *.
  repeat match goal with Hg : Ok (entry w _) = Ok _ |- _ => injection Hg as <- end.
  unfold field. cbn [_safe_get lookup String.eqb Ascii.eqb Bool.eqb].
  rewrite none_default.
  match goal with Hw : or_else (entry w "id") _ = Ok ?v |- _ => rename Hw into Hid end.
  apply or_else_ok in Hid. destruct Hid as [[Ha ->] | [Ha Hid]].
  - split; [reflexivity | intros Hf; congruence].
  - split; [intros Ht; congruence | intros _].
    match goal with Hd : normalize_doi (entry w "doi") = Ok ?doi |- _ =>
      exists doi; split; [exact Hd |] end.
    apply or_else_ok in Hid. destruct Hid as [[Hb ->] | [Hb Hid]].
    + split; [reflexivity | intros Hf; congruence].
    + split; [intros Ht; congruence | intros _].
      apply bind_ok in Hid. destruct Hid as (excerpt & Hex & Hid).
      injection Hid as <-. exists excerpt.
      split; [reflexivity |].
      unfold or_ in Hex. destruct (truthy (entry w "title")) eqn:Et.
      * split; [| intros Hf; discriminate].
        intros t Heq Hne. rewrite Heq in Hex.
        assert (Hexc : excerpt = Str.take 80 t)
          by (unfold format_prefix in Hex; congruence).
        subst excerpt. split; [reflexivity | apply take_length].
      * injection Hex as <-.
        split; [| reflexivity].
        intros t Heq Hne. rewrite Heq in Et. simpl in Et.
        destruct (String.eqb_spec t ""); [contradiction | discriminate].
Qed.

(** Two records the catalog gave no id: one with a DOI, one with
    nothing but a title of 91 characters. *)
Definition doi_only_work : pydict :=
  [("doi", VStr "https://doi.org/10.1000/XYZ"); ("title", VStr "Litter")].

Definition long_title : string :=
  "Soil carbon under drought: a ten-year field experiment across three temperate grasslands...".

Definition title_only_work : pydict := [("title", VStr long_title)].

Definition doi_only_doc : pyval :=
  Eval vm_compute in
    match build_paper_document 2026 (VDict doi_only_work) VNone VNone with
    | Ok doc => doc
    | _ => VNone
    end.

Definition title_only_doc : pyval :=
  Eval vm_compute in
    match build_paper_document 2026 (VDict title_only_work) VNone VNone with
    | Ok doc => doc
    | _ => VNone
    end.

Lemma canonical_id_priority_witness :
  field sample_doc ["_id"] = VStr "https://openalex.org/W1" /\
  field doi_only_doc ["_id"] = VStr "10.1000/xyz" /\
  (exists excerpt,
     field title_only_doc ["_id"] = VStr ("auto:" ++ excerpt) /\
     excerpt = Str.take 80 long_title /\
     (String.length excerpt <= 80)%nat).
Proof.
  split; [| split].
  - pose proof (canonical_id_priority 2026
                  [("id", VStr "https://openalex.org/W1");
                   ("title", VStr "Soil carbon under drought");
                   ("cited_by_count", VInt 12);
                   ("publication_year", VInt 2024);
                   ("abstract_inverted_index",
                     VDict [("We", VList [VInt 0]);
                            ("study", VList [VInt 2]);
                            ("soils", VList [VInt 1])])]
                  VNone VNone sample_doc) as H.
    destruct H as [Hid _]; [vm_compute; reflexivity |].
    rewrite Hid by reflexivity. reflexivity.
  - pose proof (canonical_id_priority 2026 doi_only_work VNone VNone doi_only_doc) as H.
    destruct H as [_ Hdoi]; [vm_compute; reflexivity |].
    destruct (Hdoi eq_refl) as (doi & Hd & Htaken & _).
    vm_compute in Hd. injection Hd as <-.
    apply Htaken. reflexivity.
  - pose proof (canonical_id_priority 2026 title_only_work VNone VNone title_only_doc) as H.
    destruct H as [_ Hdoi]; [vm_compute; reflexivity |].
    destruct (Hdoi eq_refl) as (doi & Hd & _ & Hauto).
    vm_compute in Hd. injection Hd as <-.
    destruct (Hauto eq_refl) as (excerpt & Hid & Hstr & _).
    exists excerpt. split; [exact Hid |].
    apply (Hstr long_title); [reflexivity | discriminate].
Defined.

(** ** Nested lookup *)



Lemma safe_get_none : forall keys, _safe_get VNone keys VNone = VNone.
Proof. intros [| k keys]; reflexivity. Qed.

(** Looking up a path is looking up its first part and then the rest
    from there. *)
Theorem safe_get_compose :
  forall data keys1 keys2,
    _safe_get data (keys1 ++ keys2)%list VNone =
    _safe_get (_safe_get data keys1 VNone) keys2 VNone.
Proof.
  intros data keys1 keys2. revert data.
  induction keys1 as [| k keys1 IH]; intros data; simpl.
  - rewrite none_default. reflexivity.
  - destruct data; try (rewrite safe_get_none; reflexivity). apply IH.
Qed.

(** ** Authors *)

Lemma mapM_Forall2 : forall (A B : Type) (f : A -> result B) l ys,
  mapM f l = Ok ys -> Forall2 (fun x y => f x = Ok y) l ys.
Proof.
  intros A B f. induction l as [| x l IH]; intros ys H; simpl in H.
  - injection H as <-. constructor.
  - apply bind_ok in H. destruct H as (y & Hy & H).
    apply bind_ok in H. destruct H as (ys' & Hys & H).
    injection H as <-. constructor; [exact Hy | apply IH; exact Hys].
Qed.

Lemma mapM_concat_Forall : forall (A B : Type) (f : A -> result (list B))
    (P : B -> Prop) l ys,
  (forall x out, f x = Ok out -> Forall P out) ->
  mapM f l = Ok ys -> Forall P (concat ys).
Proof.
  intros A B f P l ys Hf H. apply mapM_Forall2 in H.
  induction H as [| x y l ys Hxy _ IH]; simpl; [constructor |].
  apply Forall_app. split; [exact (Hf x y Hxy) | exact IH].
Qed.


(** An entry of the author list: a name that is not empty, and an
    affiliation that is never [None]. *)
Definition named_author (a : pyval) : Prop :=
  exists name affiliation,
    a = VDict [("name", name); ("affiliation", affiliation)] /\
    truthy name = true /\ affiliation <> VNone.

Lemma author_entry_named : forall name affiliation,
  truthy name = true -> named_author (author_entry name affiliation).
Proof.
  intros name affiliation H. exists name, (or_ affiliation (VStr "")).
  split; [reflexivity | split; [exact H | apply or_empty_not_none]].
Qed.

Lemma openalex_author_named : forall authorship out,
  openalex_author authorship = Ok out -> Forall named_author out.
Proof.
  intros authorship out H. unfold openalex_author in H. peel H.
  injection H as <-.
  match goal with |- Forall _ (if truthy ?n then _ else _) =>
    destruct (truthy n) eqn:E end; [| constructor].
  constructor; [apply author_entry_named; exact E | constructor].
Qed.

Lemma crossref_author_named : forall a out,
  crossref_author a = Ok out -> Forall named_author out.
Proof.
  intros a out H. unfold crossref_author in H. peel H.
  injection H as <-.
  match goal with |- Forall _ (if negb (?n =? "")%string then _ else _) =>
    destruct (negb (n =? "")%string) eqn:E end; [| constructor].
  constructor; [apply author_entry_named; exact E | constructor].
Qed.

(** Every author [_extract_authors] returns has a non-empty name and an
    affiliation that is a value, never [None]. *)
Theorem authors_are_named :
  forall work crossref authors,
    _extract_authors work crossref = Ok authors -> Forall named_author authors.
Proof.
  intros work crossref authors H. unfold _extract_authors in H. peel H.
  match goal with Hm : mapM openalex_author _ = Ok ?found |- _ =>
    pose proof (mapM_concat_Forall _ _ _ named_author _ _ openalex_author_named Hm) as Hall;
    destruct (concat found) eqn:E
  end.
  - destruct (truthy crossref); [| injection H as <-; constructor].
    peel H. injection H as <-.
    match goal with Hm : mapM crossref_author _ = Ok _ |- _ =>
      exact (mapM_concat_Forall _ _ _ named_author _ _ crossref_author_named Hm)
    end.
  - injection H as <-. exact Hall.
Qed.

(** When the catalog alone yields an author, the Crossref payload is not
    looked at: any payload gives the same list. *)
Theorem crossref_is_fallback_only :
  forall work a rest,
    _extract_authors work (VDict []) = Ok (a :: rest) ->
    forall crossref, _extract_authors work crossref = Ok (a :: rest).
Proof.
  intros work a rest H crossref. unfold _extract_authors in *. peel H.
  repeat match goal with
         | Hx : ?c = Ok _ |- context [bind ?c _] => rewrite Hx; cbn [bind]
         end.
  match goal with Hm : mapM openalex_author _ = Ok ?found |- _ =>
    destruct (concat found) eqn:E end; [discriminate | exact H].
Qed.

Definition authored_work : pyval :=
  VDict [("id", VStr "https://openalex.org/W4");
         ("authorships",
           VList [VDict [("author", VDict [("display_name", VStr "A. Rossi")]);
                         ("institutions",
                           VList [VDict [("display_name", VStr "ETH Zurich")]])];
                  VDict [("author", VDict [("display_name", VNone)])]])].

Lemma authors_are_named_witness :
  Forall named_author
    [VDict [("name", VStr "A. Rossi"); ("affiliation", VStr "ETH Zurich")]].
Proof.
  apply (authors_are_named authored_work VNone). vm_compute. reflexivity.
Defined.

Lemma crossref_is_fallback_only_witness :
  _extract_authors authored_work
    (VDict [("author", VList [VDict [("given", VStr "B."); ("family", VStr "Okoro")]])]) =
  Ok [VDict [("name", VStr "A. Rossi"); ("affiliation", VStr "ETH Zurich")]].
Proof.
  apply (crossref_is_fallback_only authored_work). vm_compute. reflexivity.
Defined.

(** ** Field fallbacks of the builder *)

(** A plain abstract in the catalog record is stored as it is; with no
    plain abstract and no inverted index the Crossref abstract is stored,
    or the empty string when there is none. *)
Theorem abstract_fallback_order :
  forall current_year w crossref unpaywall doc,
    build_paper_document current_year (VDict w) crossref unpaywall = Ok doc ->
    (truthy (entry w "abstract") = true ->
     field doc ["content"; "abstract"] = entry w "abstract") /\
    (truthy (entry w "abstract") = false ->
     truthy (entry w "abstract_inverted_index") = false ->
     forall c, or_ crossref (VDict []) = VDict c ->
     field doc ["content"; "abstract"] = or_ (entry c "abstract") (VStr "")).
Proof.
  intros cy w crossref unpaywall doc H.
  unfold build_paper_document in H. peel H. injection H as <-.
  rewrite get_dict in *.
  repeat match goal with Hg : Ok (entry w _) = Ok _ |- _ => injection Hg as <- end.
  unfold field. cbn [_safe_get lookup String.eqb Ascii.eqb Bool.eqb].
  rewrite none_default.
  match goal with Hw : or_else (entry w "abstract") _ = Ok _ |- _ => rename Hw into Ha end.
  split.
  - intros Ht. unfold or_else in Ha. rewrite Ht in Ha. injection Ha as <-. reflexivity.
  - intros Hf Hindex c Hc. unfold or_else at 1 in Ha. rewrite Hf in Ha.
    rewrite ?get_dict in Ha. cbn [bind] in Ha.
    unfold _reconstruct_abstract in Ha. rewrite Hindex in Ha. cbn [negb bind] in Ha.
    unfold or_else in Ha. cbn [truthy String.eqb negb] in Ha.
    rewrite Hc in Ha. rewrite ?get_dict in Ha. cbn [bind] in Ha.
    injection Ha as <-. reflexivity.
Qed.

(** The document of a successful build, [None] otherwise. *)
Definition built (r : result pyval) : pyval :=
  match r with Ok doc => doc | _ => VNone end.

Definition plain_doc : pyval :=
  Eval vm_compute in
    built (build_paper_document 2026
             (VDict [("id", VStr "W5"); ("abstract", VStr "Plain text.")])
             (VDict [("abstract", VStr "From Crossref.")]) VNone).

Lemma abstract_fallback_order_witness :
  field plain_doc ["content"; "abstract"] = VStr "Plain text.".
Proof.
  destruct (abstract_fallback_order 2026
              [("id", VStr "W5"); ("abstract", VStr "Plain text.")]
              (VDict [("abstract", VStr "From Crossref.")]) VNone plain_doc)
    as [Hplain _]; [vm_compute; reflexivity |].
  apply Hplain. reflexivity.
Defined.

Lemma truthy_flag : forall w k,
  truthy (match lookup k w with Some v => v | None => VBool false end) =
  truthy (entry w k).
Proof. intros w k. unfold entry. destruct (lookup k w); reflexivity. Qed.

(** The stored [is_oa] is true as soon as the catalog flags the work,
    whatever the Unpaywall payload is; otherwise it is Unpaywall's flag. *)
Theorem is_oa_is_either_flag :
  forall current_year w crossref unpaywall doc,
    build_paper_document current_year (VDict w) crossref unpaywall = Ok doc ->
    (truthy (entry w "is_oa") = true ->
     field doc ["open_access"; "is_oa"] = VBool true) /\
    (forall u, or_ unpaywall (VDict []) = VDict u ->
     field doc ["open_access"; "is_oa"] =
     VBool (truthy (entry w "is_oa") || truthy (entry u "is_oa"))).
Proof.
  intros cy w crossref unpaywall doc H.
  unfold build_paper_document in H. peel H. injection H as <-.
  unfold field. cbn [_safe_get lookup String.eqb Ascii.eqb Bool.eqb].
  match goal with
  | Hg : get_or (VDict w) "is_oa" _ = Ok ?f,
    Hw : (if truthy ?f then _ else _) = Ok _ |- _ =>
      unfold get_or in Hg; injection Hg as <-;
      rewrite truthy_flag in Hw; rename Hw into Hoa
  end.
  split.
  - intros Ht. rewrite Ht in Hoa. injection Hoa as <-. reflexivity.
  - intros u Hu. destruct (truthy (entry w "is_oa")).
    + injection Hoa as <-. reflexivity.
    + rewrite Hu in Hoa. unfold get_or in Hoa. cbn [bind] in Hoa.
      rewrite truthy_flag in Hoa. injection Hoa as <-. reflexivity.
Qed.

Definition open_doc : pyval :=
  Eval vm_compute in
    built (build_paper_document 2026
             (VDict [("id", VStr "W6"); ("is_oa", VBool false)]) VNone
             (VDict [("is_oa", VBool true)])).

Lemma is_oa_is_either_flag_witness :
  field open_doc ["open_access"; "is_oa"] = VBool true.
Proof.
  destruct (is_oa_is_either_flag 2026 [("id", VStr "W6"); ("is_oa", VBool false)]
              VNone (VDict [("is_oa", VBool true)]) open_doc)
    as [_ Hflag]; [vm_compute; reflexivity |].
  apply (Hflag [("is_oa", VBool true)]). reflexivity.
Defined.

Lemma last_of_snoc : forall l x, last_of (l ++ [x])%list = Ok x.
Proof. intros l x. unfold last_of. rewrite rev_app_distr. reflexivity. Qed.

Lemma snoc_is_cons : forall (A : Type) (l : list A) (x : A),
  exists y l', (l ++ [x])%list = y :: l'.
Proof. intros A [| a l] x; simpl; eauto. Qed.

(** [influential_citations] is the count of the last entry of
    [counts_by_year] (0 when that entry has none), and 0 when the series
    is absent, empty or not a list. *)
Theorem influential_is_latest_count :
  forall current_year w crossref unpaywall doc,
    build_paper_document current_year (VDict w) crossref unpaywall = Ok doc ->
    (forall earlier latest,
       entry w "counts_by_year" = VList (earlier ++ [VDict latest])%list ->
       exists n,
         int (match lookup "cited_by_count" latest with
              | Some v => v | None => VInt 0 end) = Ok n /\
         field doc ["impact"; "influential_citations"] = VInt n) /\
    ((forall x l, entry w "counts_by_year" <> VList (x :: l)) ->
     field doc ["impact"; "influential_citations"] = VInt 0).
Proof.
  intros cy w crossref unpaywall doc H.
  unfold build_paper_document in H. peel H. injection H as <-.
  rewrite get_dict in *.
  repeat match goal with Hg : Ok (entry w _) = Ok _ |- _ => injection Hg as <- end.
  unfold field. cbn [_safe_get lookup String.eqb Ascii.eqb Bool.eqb].
  match goal with
  | Hw : match or_ (entry w "counts_by_year") _ with VList _ => _ | _ => _ end = Ok _
    |- _ => rename Hw into Hc
  end.
  split.
  - intros earlier latest Hseries. rewrite Hseries in Hc.
    destruct (snoc_is_cons _ earlier (VDict latest)) as (y & l' & Hsnoc).
    unfold or_ in Hc. rewrite Hsnoc in Hc. cbn [truthy] in Hc.
    rewrite <- Hsnoc, last_of_snoc in Hc. cbn [bind get_or] in Hc.
    eexists. split; [exact Hc | reflexivity].
  - intros Hnot. unfold or_ in Hc.
    destruct (entry w "counts_by_year") as [| b | z | f | s | l | d] eqn:E;
      cbn [truthy] in Hc;
      try (repeat match type of Hc with
                  | context [if ?c then _ else _] => destruct c
                  end; injection Hc as <-; reflexivity).
    destruct l as [| x l]; [injection Hc as <-; reflexivity |].
    exfalso. exact (Hnot x l eq_refl).
Qed.

Definition cited_doc : pyval :=
  Eval vm_compute in
    built (build_paper_document 2026
             (VDict [("id", VStr "W7");
                     ("counts_by_year",
                       VList [VDict [("year", VInt 2024); ("cited_by_count", VInt 3)];
                              VDict [("year", VInt 2025); ("cited_by_count", VInt 8)]])])
             VNone VNone).

Lemma influential_is_latest_count_witness :
  exists n,
    int (VInt 8) = Ok n /\
    field cited_doc ["impact"; "influential_citations"] = VInt n.
Proof.
  destruct (influential_is_latest_count 2026
              [("id", VStr "W7");
               ("counts_by_year",
                 VList [VDict [("year", VInt 2024); ("cited_by_count", VInt 3)];
                        VDict [("year", VInt 2025); ("cited_by_count", VInt 8)]])]
              VNone VNone cited_doc) as [Hlast _]; [vm_compute; reflexivity |].
  apply (Hlast [VDict [("year", VInt 2024); ("cited_by_count", VInt 3)]]
               [("year", VInt 2025); ("cited_by_count", VInt 8)]).
  reflexivity.
Defined.






Lemma or_not_none : forall a b, b <> VNone -> or_ a b <> VNone.
Proof.
  intros a b Hb. unfold or_. destruct (truthy a) eqn:E; [| exact Hb].
  apply truthy_not_none. exact E.
Qed.

(** The shape of a built document: the ten top-level keys in their
    order, a title that is never empty, numbers where the collection's
    schema wants numbers, and no [None] in the journal, open-access and
    abstract fields. *)
Theorem built_document_shape :
  forall current_year work crossref unpaywall doc,
    build_paper_document current_year work crossref unpaywall = Ok doc ->
    (exists d,
       doc = VDict d /\
       map fst d = ["_id"; "title"; "year"; "authors"; "journal"; "impact";
                    "open_access"; "content"; "processing_status"; "tags"]) /\
    truthy (field doc ["title"]) = true /\
    (field doc ["year"] = VNone \/ exists y, field doc ["year"] = VInt y) /\
    (exists c, field doc ["impact"; "citation_count"] = VInt c) /\
    (exists s, field doc ["impact"; "citations_per_year"] = VFloat s) /\
    (exists n, field doc ["impact"; "influential_citations"] = VInt n) /\
    (exists b, field doc ["open_access"; "is_oa"] = VBool b) /\
    field doc ["journal"; "name"] <> VNone /\
    field doc ["journal"; "issn"] <> VNone /\
    field doc ["open_access"; "pdf_url"] <> VNone /\
    field doc ["open_access"; "status"] <> VNone /\
    field doc ["content"; "abstract"] <> VNone /\
    field doc ["content"; "full_text_extracted"] = VBool false.
Proof.
  intros cy work crossref unpaywall doc H.
  unfold build_paper_document in H. peel H. injection H as <-.
  unfold field. cbn [_safe_get lookup String.eqb Ascii.eqb Bool.eqb].
  rewrite ?none_default.
  split; [eexists; split; reflexivity |].
  split; [apply or_truthy; reflexivity |].
  split.
  { match goal with
    | Hy : (if truthy ?y then _ else Ok VNone) = Ok ?v |- _ =>
        destruct (truthy y);
        [ apply bind_ok in Hy; destruct Hy as (z & _ & Hy); injection Hy as <-;
          right; eexists; reflexivity
        | injection Hy as <-; left; reflexivity ]
    end. }
  split; [eexists; reflexivity |].
  split; [eexists; reflexivity |].
  split; [eexists; reflexivity |].
  split; [eexists; reflexivity |].
  split; [apply or_empty_not_none |].
  split; [apply or_empty_not_none |].
  split; [apply or_empty_not_none |].
  split; [apply or_not_none, or_empty_not_none |].
  split; [| reflexivity].
  match goal with
  | Ha : or_else ?plain (bind (get _ "abstract_inverted_index") _) = Ok ?a |- ?a <> VNone =>
      apply or_else_ok in Ha; destruct Ha as [[Ht ->] | [_ Ha]];
      [ apply truthy_not_none; exact Ht |];
      apply bind_ok in Ha; destruct Ha as (index & _ & Ha);
      apply bind_ok in Ha; destruct Ha as (rebuilt & _ & Ha);
      apply or_else_ok in Ha; destruct Ha as [[_ ->] | [_ Ha]];
      [ discriminate |];
      apply bind_ok in Ha; destruct Ha as (ca & _ & Ha); injection Ha as <-;
      apply or_empty_not_none
  end.
Qed.

Lemma built_document_shape_witness :
  truthy (field sample_doc ["title"]) = true /\
  field sample_doc ["content"; "abstract"] <> VNone.
Proof.
  pose proof (built_document_shape 2026 sample_work VNone VNone sample_doc) as H.
  destruct H as (_ & Htitle & _ & _ & _ & _ & _ & _ & _ & _ & _ & Habs & _);
    [vm_compute; reflexivity |].
  split; [exact Htitle | exact Habs].
Defined.

(** * Further properties of identifier normalization *)

Lemma lower_app : forall s t, Str.lower (s ++ t) = Str.lower s ++ Str.lower t.
Proof.
  induction s as [| c s IH]; intros t; simpl; [reflexivity |].
  rewrite IH. reflexivity.
Qed.

Lemma lower_idem : forall s, Str.lower (Str.lower s) = Str.lower s.
Proof. intros s. apply lowered_fixed, lowered_lower. Qed.

Lemma lower_empty : forall s, Str.lower s = "" -> s = "".
Proof. intros [| c s] H; [reflexivity | discriminate]. Qed.

Lemma lstrip_length : forall sp s,
  (String.length (Str.lstrip_by sp s) <= String.length s)%nat.
Proof.
  intros sp. induction s as [| c s IH]; simpl; [lia |].
  destruct (sp c); simpl; lia.
Qed.

Lemma rstrip_length : forall sp s,
  (String.length (Str.rstrip_by sp s) <= String.length s)%nat.
Proof.
  intros sp. induction s as [| c s IH]; simpl; [lia |].
  destruct (Str.rstrip_by sp s) as [| a r]; [destruct (sp c) |]; simpl in *; lia.
Qed.

Lemma lstrip_fixed_or_shorter : forall sp s,
  Str.lstrip_by sp s = s \/
  (String.length (Str.lstrip_by sp s) < String.length s)%nat.
Proof.
  intros sp [| c s]; simpl; [left; reflexivity |].
  destruct (sp c); [right | left; reflexivity].
  pose proof (lstrip_length sp s). lia.
Qed.

(** A string [strip] leaves alone is left alone by both halves. *)
Lemma strip_fixed_rstrip : forall s,
  Str.strip s = s -> Str.rstrip_by Str.is_space s = s.
Proof.
  intros s H. unfold Str.strip in H.
  destruct (lstrip_fixed_or_shorter Str.is_space s) as [Hl | Hl].
  - rewrite Hl in H. exact H.
  - pose proof (rstrip_length Str.is_space (Str.lstrip_by Str.is_space s)) as Hr.
    rewrite H in Hr. lia.
Qed.

Lemma rstrip_app_fixed : forall sp p s,
  s <> "" -> Str.rstrip_by sp s = s -> Str.rstrip_by sp (p ++ s) = p ++ s.
Proof.
  intros sp p s Hne Hs. induction p as [| c p IH]; simpl; [exact Hs |].
  rewrite IH. destruct (p ++ s) as [| a r] eqn:E; [| reflexivity].
  destruct p; simpl in E; [contradiction | discriminate].
Qed.

Lemma prefix_app : forall old s, prefix old (old ++ s) = true.
Proof.
  induction old as [| c old IH]; intros s; simpl.
  - destruct s; reflexivity.
  - destruct (ascii_dec c c); [apply IH | contradiction].
Qed.

Lemma replace_skip : forall old new t s,
  Str.replace_from old new (String.length t) (t ++ s) = Str.replace_from old new 0 s.
Proof.
  intros old new. induction t as [| c t IH]; intros s; simpl; [reflexivity |].
  apply IH.
Qed.

(** Deleting [old] from a string that starts with it. *)
Lemma replace_leading : forall c old s,
  Str.replace (String c old) "" (String c old ++ s) = Str.replace (String c old) "" s.
Proof.
  intros c old s. unfold Str.replace.
  change (String c old ++ s) with (String c (old ++ s)).
  cbn [Str.replace_from].
  change (String c (old ++ s)) with (String c old ++ s).
  rewrite prefix_app.
  change (String.length (String c old) - 1)%nat with (String.length old - 0)%nat.
  rewrite Nat.sub_0_r, replace_skip. reflexivity.
Qed.

(** The resolver URL of a lowercase bare identifier, with either
    scheme, normalizes to that identifier. *)
Theorem normalize_strips_resolver :
  forall b,
    is_bare b = true -> Str.lower b = b ->
    normalize_doi (VStr (https_prefix ++ b)) = Ok (VStr b) /\
    normalize_doi (VStr (http_prefix ++ b)) = Ok (VStr b).
Proof.
  intros b Hb Hl. pose proof Hb as Hbare. unfold is_bare in Hb.
  repeat (apply andb_true_iff in Hb; destruct Hb as [Hb ?]).
  apply negb_true_iff in Hb.
  assert (Hne : b <> "") by (intros ->; discriminate).
  match goal with Hs : (Str.strip b =? b)%string = true |- _ =>
    apply String.eqb_eq, strip_fixed_rstrip in Hs; rename Hs into Hr end.
  match goal with Ho : negb (Str.occurs https_prefix b) = true |- _ =>
    apply negb_true_iff in Ho; rename Ho into Hs1 end.
  match goal with Ho : negb (Str.occurs http_prefix b) = true |- _ =>
    apply negb_true_iff in Ho; rename Ho into Hs2 end.
  split.
  - change (normalize_doi (VStr (https_prefix ++ b)))
      with (Ok (VStr (normalize_str (https_prefix ++ b)))).
    unfold normalize_str. rewrite lower_app, Hl.
    change (Str.lower https_prefix) with https_prefix.
    change (Str.strip (https_prefix ++ b))
      with (Str.rstrip_by Str.is_space (https_prefix ++ b)).
    rewrite (rstrip_app_fixed _ _ _ Hne Hr).
    unfold https_prefix at 1 2. rewrite replace_leading.
    fold https_prefix.
    rewrite (replace_absent https_prefix b Hs1), (replace_absent http_prefix b Hs2).
    reflexivity.
  - change (normalize_doi (VStr (http_prefix ++ b)))
      with (Ok (VStr (normalize_str (http_prefix ++ b)))).
    unfold normalize_str. rewrite lower_app, Hl.
    change (Str.lower http_prefix) with http_prefix.
    change (Str.strip (http_prefix ++ b))
      with (Str.rstrip_by Str.is_space (http_prefix ++ b)).
    rewrite (rstrip_app_fixed _ _ _ Hne Hr).
    rewrite (replace_absent https_prefix (http_prefix ++ b)) by exact Hs1.
    unfold http_prefix at 1 2. rewrite replace_leading.
    fold http_prefix.
    rewrite (replace_absent http_prefix b Hs2). reflexivity.
Qed.

Lemma normalize_strips_resolver_witness :
  normalize_doi (VStr "https://doi.org/10.1000/x") = Ok (VStr "10.1000/x") /\
  normalize_doi (VStr "http://doi.org/10.1000/x") = Ok (VStr "10.1000/x").
Proof. apply (normalize_strips_resolver "10.1000/x"); reflexivity. Defined.

(** Normalization ignores case, and what it returns is lowercase. *)
Theorem normalize_ignores_case :
  forall s1 s2,
    Str.lower s1 = Str.lower s2 ->
    normalize_doi (VStr s1) = normalize_doi (VStr s2) /\
    (forall y, normalize_doi (VStr s1) = Ok (VStr y) -> Str.lower y = y).
Proof.
  intros s1 s2 H. split.
  - unfold normalize_doi, normalize_str. cbn [truthy]. rewrite H.
    destruct s1 as [| c1 s1]; destruct s2 as [| c2 s2];
      try discriminate; reflexivity.
  - intros y Hy. unfold normalize_doi in Hy.
    destruct (negb (truthy (VStr s1))); [discriminate |].
    injection Hy as <-. apply lowered_fixed, lowered_normalize.
Qed.

Lemma normalize_ignores_case_witness :
  normalize_doi (VStr "10.1000/ABC") = normalize_doi (VStr "10.1000/abc") /\
  (forall y, normalize_doi (VStr "10.1000/ABC") = Ok (VStr y) -> Str.lower y = y).
Proof. apply normalize_ignores_case. reflexivity. Defined.

(** What [normalize_doi] does outside strings: every falsy value gives
    [None], every other value that is not a string raises
    [AttributeError]. *)
Theorem normalize_doi_on_other_values :
  forall v,
    (truthy v = false -> normalize_doi v = Ok VNone) /\
    (truthy v = true -> (forall s, v <> VStr s) ->
     normalize_doi v = Raise AttributeError).
Proof.
  intros v. split.
  - intros H. unfold normalize_doi. rewrite H. reflexivity.
  - intros H Hs. unfold normalize_doi. rewrite H. simpl.
    destruct v; try reflexivity. exfalso. exact (Hs s eq_refl).
Qed.

Lemma normalize_doi_on_other_values_witness :
  normalize_doi (VList []) = Ok VNone /\
  normalize_doi (VInt 10) = Raise AttributeError.
Proof.
  split.
  - apply (normalize_doi_on_other_values (VList [])). reflexivity.
  - apply (normalize_doi_on_other_values (VInt 10)); [reflexivity |].
    intros s. discriminate.
Defined.

(** * Further properties of abstract reconstruction *)






(** * Further properties of the upsert loop *)

(** Records the loop has accounted for with a counter or a printed
    failure. *)
Definition handled (r : run) : Z :=
  inserted r + updated r + Z.of_nat (length (reported r)).

Definition stored (r : run) : Z := Z.of_nat (length (Store.documents (store r))).

Lemma put_length : forall _id doc docs,
  length (Store.put _id doc docs) = length docs.
Proof.
  intros _id doc. induction docs as [| [k d] docs IH]; simpl; [reflexivity |].
  destruct (pyval_eqb k _id); simpl; [reflexivity | rewrite IH; reflexivity].
Qed.

Lemma write_length : forall _id doc docs,
  (length docs <= length (Store.write _id doc docs) <= length docs + 1)%nat.
Proof.
  intros _id doc docs. unfold Store.write.
  destruct (Store.find _id docs); rewrite ?put_length, ?length_app; simpl; lia.
Qed.

(** One round of the loop: no counter goes down, at most one of the
    three tallies goes up by one, and the collection grows by what
    [inserted] grows by, plus at most one document when the round is a
    reported failure whose write had been applied. *)
Lemma upsert_one_tallies : forall doc st,
  let st' := upsert_one doc st in
  inserted st <= inserted st' /\ updated st <= updated st' /\
  (length (reported st) <= length (reported st'))%nat /\
  handled st' <= handled st + 1 /\
  stored st - inserted st <= stored st' - inserted st' /\
  stored st' - inserted st' - Z.of_nat (length (reported st')) <=
    stored st - inserted st - Z.of_nat (length (reported st)).
Proof.
  intros doc st. unfold upsert_one. fold (doc_id doc).
  destruct (truthy (doc_id doc)) eqn:Hid; simpl; [| unfold handled, stored; lia].
  unfold Store.replace_one.
  pose proof (write_length (doc_id doc) doc (Store.documents (store st))) as Hw.
  destruct (Store.faults (store st)) as [| [|] later];
    try destruct (hd false (Store.applied (store st)));
    try (destruct (Store.find (doc_id doc) (Store.documents (store st))) as [old |];
         simpl; rewrite ?Hid;
         try (destruct (pydict_eqb old doc); simpl));
    unfold handled, stored; simpl;
    rewrite ?put_length, ?length_app; simpl; lia.
Qed.

(** Over a whole batch: the counters are non-negative, every paper is
    counted at most once among inserted, updated and failed, and the
    collection never shrinks: it ends with at least [inserted] documents
    more than it started with, and with at most one more for each
    reported failure, whose write may have been applied. *)
Theorem upsert_tallies :
  forall papers coll,
    let r := upsert_to_db papers coll in
    0 <= inserted r /\ 0 <= updated r /\
    inserted r + updated r + Z.of_nat (length (reported r)) <=
      Z.of_nat (length papers) /\
    Z.of_nat (length (Store.documents coll)) + inserted r <=
      Z.of_nat (length (Store.documents (store r))) /\
    Z.of_nat (length (Store.documents (store r))) <=
      Z.of_nat (length (Store.documents coll)) + inserted r +
      Z.of_nat (length (reported r)).
Proof.
  intros papers coll r. subst r. unfold upsert_to_db.
  set (st0 := {| store := coll; inserted := 0; updated := 0; reported := [] |}).
  assert (Hgen : forall ps st,
            inserted st <= inserted (upsert_loop ps st) /\
            updated st <= updated (upsert_loop ps st) /\
            handled (upsert_loop ps st) <= handled st + Z.of_nat (length ps) /\
            stored st - inserted st <=
              stored (upsert_loop ps st) - inserted (upsert_loop ps st) /\
            stored (upsert_loop ps st) - inserted (upsert_loop ps st)
              - Z.of_nat (length (reported (upsert_loop ps st))) <=
              stored st - inserted st - Z.of_nat (length (reported st))).
  { induction ps as [| doc ps IH]; intros st; cbn [upsert_loop length].
    - lia.
    - pose proof (upsert_one_tallies doc st) as (Hi & Hu & _ & Hh & Hs & Hr).
      specialize (IH (upsert_one doc st)). lia. }
  specialize (Hgen papers st0). unfold handled, stored in Hgen. simpl in Hgen.
  lia.
Qed.

Lemma find_app_new : forall _id doc docs,
  Store.find _id docs = None ->
  Store.find _id (docs ++ [(_id, doc)])%list = Some doc.
Proof.
  intros _id doc. induction docs as [| [k d] docs IH]; intros H; simpl in *.
  - rewrite pyval_eqb_refl. reflexivity.
  - destruct (pyval_eqb k _id); [discriminate | apply IH; exact H].
Qed.

(** Insert then look up: after a round of the loop in which the store
    does not fail, the collection holds the document under its id, whether
    it was inserted or replaced an older one. *)
Theorem upsert_then_find :
  forall doc st,
    truthy (doc_id doc) = true ->
    hd false (Store.faults (store st)) = false ->
    Store.find (doc_id doc) (Store.documents (store (upsert_one doc st))) = Some doc.
Proof.
  intros doc st Hid Hf. unfold upsert_one. fold (doc_id doc). rewrite Hid. simpl.
  unfold Store.replace_one.
  destruct (Store.faults (store st)) as [| [|] later]; simpl in Hf; try discriminate;
    destruct (Store.find (doc_id doc) (Store.documents (store st))) as [old |] eqn:E;
    simpl; rewrite ?Hid;
    try (destruct (pydict_eqb old doc); simpl);
    first [ apply (find_put_same _ _ _ old); exact E | apply find_app_new; exact E ].
Qed.

Lemma upsert_then_find_witness :
  Store.find (doc_id paper_b)
    (Store.documents
       (store (upsert_one paper_b
                 {| store := {| Store.documents := [(doc_id paper_a, paper_a)];
                                Store.faults := []; Store.applied := [] |};
                    inserted := 1; updated := 0; reported := [] |}))) = Some paper_b.
Proof. apply upsert_then_find; reflexivity. Defined.

(** The store's equality of values is an equivalence; what the loop
    needs is that two ids equal to a third are equal to each other. *)
Lemma pyfloat_eqb_common : forall k a b,
  pyfloat_eqb k a = true -> pyfloat_eqb k b = true -> pyfloat_eqb a b = true.
Proof.
  intros [x | x |] [y | y |] [z | z |]; simpl; intros H1 H2; try discriminate;
    try reflexivity.
  - apply Qeq_bool_iff in H1. apply Qeq_bool_iff in H2. apply Qeq_bool_iff.
    rewrite <- H1. exact H2.
  - apply Bool.eqb_prop in H1. apply Bool.eqb_prop in H2. subst.
    apply Bool.eqb_reflx.
Qed.

Lemma pyval_eqb_common : forall k a b,
  pyval_eqb k a = true -> pyval_eqb k b = true -> pyval_eqb a b = true.
Proof.
  fix IH 1. intros [| x | x | x | x | x | x] [| y | y | y | y | y | y]
    [| z | z | z | z | z | z]; simpl; intros H1 H2; try discriminate;
    try reflexivity.
  - apply Bool.eqb_prop in H1. apply Bool.eqb_prop in H2. subst.
    apply Bool.eqb_reflx.
  - apply Z.eqb_eq in H1. apply Z.eqb_eq in H2. subst. apply Z.eqb_refl.
  - exact (pyfloat_eqb_common x y z H1 H2).
  - apply String.eqb_eq in H1. apply String.eqb_eq in H2. subst.
    apply String.eqb_refl.
  - revert y z H1 H2. induction x as [| e x IHx]; intros [| f y] [| g z] H1 H2;
      try discriminate; try reflexivity.
    apply andb_true_iff in H1. destruct H1 as [H1 H1'].
    apply andb_true_iff in H2. destruct H2 as [H2 H2'].
    rewrite (IH e f g H1 H2), (IHx y z H1' H2'). reflexivity.
  - revert y z H1 H2.
    induction x as [| [ke e] x IHx]; intros [| [kf f] y] [| [kg g] z] H1 H2;
      try discriminate; try reflexivity.
    apply andb_true_iff in H1. destruct H1 as [H1 H1'].
    apply andb_true_iff in H1. destruct H1 as [K1 H1].
    apply andb_true_iff in H2. destruct H2 as [H2 H2'].
    apply andb_true_iff in H2. destruct H2 as [K2 H2].
    apply String.eqb_eq in K1. apply String.eqb_eq in K2. subst.
    rewrite String.eqb_refl, (IH e f g H1 H2), (IHx y z H1' H2'). reflexivity.
Qed.

Lemma find_put_other : forall _id other doc docs,
  pyval_eqb _id other = false ->
  Store.find other (Store.put _id doc docs) = Store.find other docs.
Proof.
  intros _id other doc docs Hne. induction docs as [| [k d] docs IH]; simpl;
    [reflexivity |].
  destruct (pyval_eqb k _id) eqn:E1; simpl.
  - destruct (pyval_eqb k other) eqn:E2; [| reflexivity].
    rewrite (pyval_eqb_common k _id other E1 E2) in Hne. discriminate.
  - destruct (pyval_eqb k other); [reflexivity | exact IH].
Qed.

Lemma find_app_other : forall _id other doc docs,
  pyval_eqb _id other = false ->
  Store.find other (docs ++ [(_id, doc)])%list = Store.find other docs.
Proof.
  intros _id other doc docs Hne. induction docs as [| [k d] docs IH]; simpl.
  - rewrite Hne. reflexivity.
  - destruct (pyval_eqb k other); [reflexivity | exact IH].
Qed.

(** A round of the loop touches one id only: what the collection holds
    under any other id is what it held before, whether the store inserted,
    replaced or failed. *)
Theorem upsert_leaves_other_ids :
  forall doc st other,
    pyval_eqb (doc_id doc) other = false ->
    Store.find other (Store.documents (store (upsert_one doc st))) =
    Store.find other (Store.documents (store st)).
Proof.
  intros doc st other Hne. unfold upsert_one. fold (doc_id doc).
  destruct (truthy (doc_id doc)) eqn:Hid; simpl; [| reflexivity].
  unfold Store.replace_one, Store.write.
  destruct (Store.faults (store st)) as [| [|] later];
    try destruct (hd false (Store.applied (store st)));
    destruct (Store.find (doc_id doc) (Store.documents (store st))) as [old |];
    simpl; rewrite ?Hid;
    try (destruct (pydict_eqb old doc); simpl);
    first [ reflexivity
          | apply find_put_other; exact Hne
          | apply find_app_other; exact Hne ].
Qed.

Lemma upsert_leaves_other_ids_witness :
  Store.find (doc_id paper_a)
    (Store.documents
       (store (upsert_one paper_b
                 {| store := {| Store.documents := [(doc_id paper_a, paper_a)];
                                Store.faults := []; Store.applied := [] |};
                    inserted := 1; updated := 0; reported := [] |}))) =
  Some paper_a.
Proof.
  rewrite (upsert_leaves_other_ids paper_b _ (doc_id paper_a)); reflexivity.
Defined.

(** * Enrichment: [process_and_enrich] *)

Section Enrich.

(** What the two lookups answer for a normalized DOI ([fetch_unpaywall]
    with the configured e-mail), and the year during the run. *)
Variables (fetch_crossref fetch_unpaywall : pyval -> pyval) (current_year : Z).

(** The body of [for work in results]. *)
Definition enrich_one (work : pyval) : result pyval :=
  raw <- get work "doi" ;;
  doi <- normalize_doi raw ;;
  let crossref := if truthy doi then fetch_crossref doi else VDict [] in
  let unpaywall := if truthy doi then fetch_unpaywall doi else VDict [] in
  build_paper_document current_year work crossref unpaywall.

Definition process_and_enrich (data : pyval) : result (list pyval) :=
  results <- get_or data "results" (VList []) ;;
  works <- iter results ;;
  mapM enrich_one works.

End Enrich.

Lemma mapM_length : forall (A B : Type) (f : A -> result B) l ys,
  mapM f l = Ok ys -> length ys = length l.
Proof.
  intros A B f l ys H. apply mapM_Forall2 in H.
  induction H; simpl; [reflexivity | congruence].
Qed.

Lemma mapM_Forall : forall (A B : Type) (f : A -> result B) (P : B -> Prop) l ys,
  (forall x y, f x = Ok y -> P y) -> mapM f l = Ok ys -> Forall P ys.
Proof.
  intros A B f P l ys Hf H. apply mapM_Forall2 in H.
  induction H as [| x y l ys Hxy _ IH]; constructor; [exact (Hf x y Hxy) | exact IH].
Qed.

Lemma mapM_raises : forall (A B : Type) (f : A -> result B) pre x post e,
  Forall (fun a => exists b, f a = Ok b) pre ->
  f x = Raise e ->
  mapM f (pre ++ x :: post)%list = Raise e.
Proof.
  intros A B f pre x post e Hpre Hx. induction Hpre as [| a pre [b Hb] _ IH]; simpl.
  - rewrite Hx. reflexivity.
  - rewrite Hb. simpl. rewrite IH. reflexivity.
Qed.

(** A successful enrichment returns one document per catalog record, in
    order, and each is a dict with a non-empty [_id]. *)
Theorem enrich_gives_one_document_each :
  forall fetch_crossref fetch_unpaywall current_year data works papers,
    get_or data "results" (VList []) = Ok (VList works) ->
    process_and_enrich fetch_crossref fetch_unpaywall current_year data = Ok papers ->
    length papers = length works /\
    Forall (fun p => exists d, p = VDict d /\ truthy (doc_id d) = true) papers.
Proof.
  intros fc fu cy data works papers Hres H.
  unfold process_and_enrich in H. rewrite Hres in H. cbn [bind iter] in H.
  split; [exact (mapM_length _ _ _ _ _ H) |].
  eapply mapM_Forall; [| exact H].
  intros x y Hxy. unfold enrich_one in Hxy.
  apply bind_ok in Hxy. destruct Hxy as (raw & _ & Hxy).
  apply bind_ok in Hxy. destruct Hxy as (doi & _ & Hxy).
  unfold build_paper_document in Hxy. peel Hxy. injection Hxy as <-.
  eexists. split; [reflexivity |].
  unfold doc_id. cbn [lookup String.eqb Ascii.eqb Bool.eqb].
  match goal with Hid : or_else ?a (or_else ?b _) = Ok ?v |- truthy ?v = true =>
    exact (work_id_truthy _ _ _ _ Hid)
  end.
Qed.

Definition no_payload (doi : pyval) : pyval := VDict [].

Lemma enrich_gives_one_document_each_witness :
  length [sample_doc] = length [sample_work] /\
  Forall (fun p => exists d, p = VDict d /\ truthy (doc_id d) = true) [sample_doc].
Proof.
  apply (enrich_gives_one_document_each no_payload no_payload 2026
           (VDict [("results", VList [sample_work])])).
  - reflexivity.
  - vm_compute. reflexivity.
Defined.

(** Enrichment has no per-record guard: the first record on which the
    builder raises makes the whole call raise, and no document of the
    batch is returned. *)
Theorem enrich_aborts_on_first_failure :
  forall fetch_crossref fetch_unpaywall current_year pre work post e,
    Forall (fun w => exists doc,
              enrich_one fetch_crossref fetch_unpaywall current_year w = Ok doc) pre ->
    enrich_one fetch_crossref fetch_unpaywall current_year work = Raise e ->
    process_and_enrich fetch_crossref fetch_unpaywall current_year
      (VDict [("results", VList (pre ++ work :: post)%list)]) = Raise e.
Proof.
  intros fc fu cy pre work post e Hpre Hwork.
  unfold process_and_enrich. cbn [get_or lookup String.eqb Ascii.eqb Bool.eqb bind iter].
  apply mapM_raises; assumption.
Qed.

Lemma enrich_aborts_on_first_failure_witness :
  process_and_enrich no_payload no_payload 2026
    (VDict [("results", VList [sample_work; malformed_count_work; sample_work])]) =
  Raise ValueError.
Proof.
  apply (enrich_aborts_on_first_failure no_payload no_payload 2026
           [sample_work] malformed_count_work [sample_work] ValueError).
  - constructor; [| constructor]. eexists. vm_compute. reflexivity.
  - vm_compute. reflexivity.
Defined.

(** A record without a DOI is built from the catalog record alone: the
    two lookups are not made, so what they would answer does not matter. *)
Theorem enrich_without_doi_ignores_lookups :
  forall fc1 fu1 fc2 fu2 current_year w,
    truthy (entry w "doi") = false ->
    enrich_one fc1 fu1 current_year (VDict w) =
    enrich_one fc2 fu2 current_year (VDict w) /\
    enrich_one fc1 fu1 current_year (VDict w) =
    build_paper_document current_year (VDict w) (VDict []) (VDict []).
Proof.
  intros fc1 fu1 fc2 fu2 cy w H. unfold enrich_one.
  rewrite get_dict. cbn [bind]. unfold normalize_doi at 1 2 3. rewrite H.
  cbn [negb bind truthy]. split; reflexivity.
Qed.

Definition loud_payload (doi : pyval) : pyval :=
  VDict [("abstract", VStr "From a lookup."); ("is_oa", VBool true)].

Lemma enrich_without_doi_ignores_lookups_witness :
  enrich_one loud_payload loud_payload 2026 sample_work =
  enrich_one no_payload no_payload 2026 sample_work.
Proof.
  apply (enrich_without_doi_ignores_lookups loud_payload loud_payload
           no_payload no_payload 2026). reflexivity.
Defined.

(** * The tier in terms of the integer count *)

(** Every quotient above 5 of an integer up to 2^53 by an age is at
    least the first of these numbers, and every such quotient above 1 is
    at least the second. *)
Definition just_above_5 : Q := inject_Z (5 * (2 ^ 51 - 1) + 1) / inject_Z (2 ^ 51 - 1).
Definition just_above_1 : Q := inject_Z (2 ^ 53) / inject_Z (2 ^ 53 - 1).

Lemma round64_thresholds :
  Num.round64 5 = FNum 5 /\
  Num.round64 1 = FNum 1 /\
  (exists v, Num.round64 just_above_5 = FNum v /\ (5 < v)%Q) /\
  (exists v, Num.round64 just_above_1 = FNum v /\ (1 < v)%Q).
Proof.
  split; [vm_compute; reflexivity |]. split; [vm_compute; reflexivity |].
  split; eexists; (split; [vm_compute; reflexivity | vm_compute; reflexivity]).
Qed.

(** For an integer citation count and an age, both within 2^53, the
    tier is HIGH when the count exceeds five times the age, MODERATE when
    it exceeds the age, LOW otherwise: rounding the quotient moves it
    across neither threshold. *)
Theorem tier_of_integer_count :
  forall current_year (c : Z) year,
    - 2 ^ 53 <= c <= 2 ^ 53 ->
    impact_age current_year year <= 2 ^ 53 ->
    impact_tier current_year (VInt c) year =
    Ok (if 5 * impact_age current_year year <? c then "HIGH"
        else if impact_age current_year year <? c then "MODERATE"
        else "LOW").
Proof.
  intros cy c year Hc Hmax. unfold impact_tier.
  pose proof (impact_age_pos cy year) as Hage.
  assert (Hf : float (VInt c) = Ok (FNum (inject_Z c)))
    by (apply float_of_int_exact; exact Hc).
  rewrite (impact_score_exact cy (VInt c) year (inject_Z c) Hf Hmax). cbn [bind].
  set (age := impact_age cy year) in *.
  unfold classify_impact, gt_int. cbn [bind].
  change (inject_Z 5) with 5%Q. change (inject_Z 1) with 1%Q.
  destruct round64_thresholds as (H5 & H1 & (v5 & E5 & L5) & (v1 & E1 & L1)).
  destruct (Z.ltb_spec (5 * age) c) as [Hhigh | Hnot].
  - rewrite (round64_above just_above_5 v5 _ 5 E5); [reflexivity | | exact L5].
    apply Zdiv_Qle; lia.
  - rewrite (round64_below 5 5 _ H5).
    2:{ change 5%Q with (inject_Z 5 / inject_Z 1)%Q. apply Zdiv_Qle; lia. }
    destruct (Z.ltb_spec age c) as [Hmod | Hlow].
    + rewrite (round64_above just_above_1 v1 _ 1 E1); [reflexivity | | exact L1].
      apply Zdiv_Qle; lia.
    + rewrite (round64_below 1 1 _ H1); [reflexivity |].
      change 1%Q with (inject_Z 1 / inject_Z 1)%Q. apply Zdiv_Qle; lia.
Qed.

Lemma tier_of_integer_count_witness :
  impact_tier 2026 (VInt 12) (VInt 2024) =
  Ok (if 5 * impact_age 2026 (VInt 2024) <? 12 then "HIGH"
      else if impact_age 2026 (VInt 2024) <? 12 then "MODERATE"
      else "LOW").
Proof.
  apply (tier_of_integer_count 2026 12 (VInt 2024)).
  - vm_compute. split; discriminate.
  - vm_compute. discriminate.
Defined.

(** * More on the builder's fields and on the pipeline *)

Lemma or_left : forall a b, truthy a = true -> or_ a b = a.
Proof. intros a b H. unfold or_. rewrite H. reflexivity. Qed.

Lemma or_right : forall a b, truthy a = false -> or_ a b = b.
Proof. intros a b H. unfold or_. rewrite H. reflexivity. Qed.

(** The stored [pdf_url] is the first non-empty one of: the catalog's
    best open-access location, the catalog's primary location, Unpaywall's
    best location, Unpaywall's [url]; the empty string when none is. *)
Theorem pdf_url_fallback_order :
  forall current_year w crossref unpaywall doc,
    build_paper_document current_year (VDict w) crossref unpaywall = Ok doc ->
    let best := _safe_get (VDict w) ["best_oa_location"; "url_for_pdf"] VNone in
    let primary := _safe_get (VDict w) ["primary_location"; "pdf_url"] VNone in
    (truthy best = true -> field doc ["open_access"; "pdf_url"] = best) /\
    (truthy best = false -> truthy primary = true ->
     field doc ["open_access"; "pdf_url"] = primary) /\
    (truthy best = false -> truthy primary = false ->
     forall u, or_ unpaywall (VDict []) = VDict u ->
     field doc ["open_access"; "pdf_url"] =
     or_ (or_ (_safe_get (VDict u) ["best_oa_location"; "url_for_pdf"] VNone)
              (entry u "url")) (VStr "")).
Proof.
  intros cy w crossref unpaywall doc H best primary.
  assert (Hbest : _safe_get (VDict w) ["best_oa_location"; "url_for_pdf"] VNone = best)
    by reflexivity.
  assert (Hprimary : _safe_get (VDict w) ["primary_location"; "pdf_url"] VNone = primary)
    by reflexivity.
  clearbody best primary.
  unfold build_paper_document in H. peel H. injection H as <-.
  match goal with
  | Hw : or_else _ (or_else _ (or_else _ (get _ "url"))) = Ok _ |- _ =>
      rename Hw into Hp
  end.
  rewrite Hbest, Hprimary in Hp.
  unfold field. cbn [_safe_get lookup String.eqb Ascii.eqb Bool.eqb].
  rewrite ?none_default.
  apply or_else_ok in Hp. destruct Hp as [[Ha ->] | [Ha Hp]].
  { rewrite (or_left best (VStr "") Ha).
    split; [reflexivity |]. split; intros; congruence. }
  apply or_else_ok in Hp. destruct Hp as [[Hb ->] | [Hb Hp]].
  { rewrite (or_left primary (VStr "") Hb).
    split; [intros; congruence |]. split; [reflexivity | intros; congruence]. }
  split; [intros; congruence |]. split; [intros; congruence |].
  intros _ _ u Hu. rewrite Hu in Hp.
  set (ubest := _safe_get (VDict u) ["best_oa_location"; "url_for_pdf"] VNone) in Hp.
  match goal with |- or_ ?v _ = _ =>
    change (or_ v (VStr "") = or_ (or_ ubest (entry u "url")) (VStr "")) end.
  apply or_else_ok in Hp. destruct Hp as [[Hc ->] | [Hc Hp]].
  - rewrite (or_left ubest (entry u "url") Hc). reflexivity.
  - rewrite get_dict in Hp. injection Hp as <-.
    rewrite (or_right ubest (entry u "url") Hc). reflexivity.
Qed.

Definition located_doc : pyval :=
  Eval vm_compute in
    built (build_paper_document 2026
             (VDict [("id", VStr "W9");
                     ("primary_location", VDict [("pdf_url", VStr "https://x.org/a.pdf")])])
             VNone (VDict [("url", VStr "https://y.org/b.pdf")])).

Lemma pdf_url_fallback_order_witness :
  field located_doc ["open_access"; "pdf_url"] = VStr "https://x.org/a.pdf".
Proof.
  destruct (pdf_url_fallback_order 2026
              [("id", VStr "W9");
               ("primary_location", VDict [("pdf_url", VStr "https://x.org/a.pdf")])]
              VNone (VDict [("url", VStr "https://y.org/b.pdf")]) located_doc)
    as (_ & Hprimary & _); [vm_compute; reflexivity |].
  apply Hprimary; reflexivity.
Defined.

(** With an integer count and an integer year in the catalog record,
    the stored count is that count, the stored rate is the count divided by
    the age, and the stored year is that year, or [None] for year 0. *)
Theorem stored_numbers_follow_the_catalog :
  forall current_year w crossref unpaywall doc c y,
    build_paper_document current_year (VDict w) crossref unpaywall = Ok doc ->
    lookup "cited_by_count" w = Some (VInt c) ->
    entry w "publication_year" = VInt y ->
    - 2 ^ 53 <= c <= 2 ^ 53 ->
    impact_age current_year (VInt y) <= 2 ^ 53 ->
    field doc ["impact"; "citation_count"] = VInt c /\
    field doc ["impact"; "citations_per_year"] =
      VFloat (Num.round64 (inject_Z c / inject_Z (impact_age current_year (VInt y)))) /\
    field doc ["year"] = (if y =? 0 then VNone else VInt y).
Proof.
  intros cy w crossref unpaywall doc c y H Hc Hy Hrange Hage.
  unfold build_paper_document in H. peel H. injection H as <-.
  rewrite get_dict in *.
  repeat match goal with Hg : Ok (entry w _) = Ok _ |- _ => injection Hg as <- end.
  match goal with Hg : get_or (VDict w) "cited_by_count" _ = Ok ?v |- _ =>
    unfold get_or in Hg; rewrite Hc in Hg; injection Hg as <- end.
  rewrite Hy in *.
  assert (Hcit : or_ (VInt c) (VInt 0) = VInt c \/ c = 0).
  { unfold or_. simpl. destruct (Z.eqb_spec c 0); [right; assumption | left; reflexivity]. }
  assert (Hor : int (or_ (VInt c) (VInt 0)) = Ok c /\
                float (or_ (VInt c) (VInt 0)) = Ok (FNum (inject_Z c))).
  { destruct Hcit as [-> | ->]; split; try reflexivity.
    apply float_of_int_exact. exact Hrange. }
  destruct Hor as [Hint Hfloat].
  unfold field. cbn [_safe_get lookup String.eqb Ascii.eqb Bool.eqb].
  match goal with Hi : int (or_ (VInt c) (VInt 0)) = Ok ?n |- _ =>
    rewrite Hint in Hi; injection Hi as <- end.
  match goal with Hs : impact_score cy (or_ (VInt c) (VInt 0)) (VInt y) = Ok ?s |- _ =>
    rewrite (impact_score_exact cy _ (VInt y) _ Hfloat Hage) in Hs; injection Hs as <- end.
  split; [reflexivity |]. split; [reflexivity |].
  match goal with Hyr : (if truthy (VInt y) then _ else _) = Ok ?v |- _ =>
    simpl in Hyr; destruct (y =? 0); simpl in Hyr; injection Hyr as <- end;
    reflexivity.
Qed.

Lemma stored_numbers_follow_the_catalog_witness :
  field sample_doc ["impact"; "citation_count"] = VInt 12 /\
  field sample_doc ["impact"; "citations_per_year"] =
    VFloat (Num.round64 (inject_Z 12 / inject_Z (impact_age 2026 (VInt 2024)))) /\
  field sample_doc ["year"] = (if 2024 =? 0 then VNone else VInt 2024).
Proof.
  apply (stored_numbers_follow_the_catalog 2026
           [("id", VStr "https://openalex.org/W1");
            ("title", VStr "Soil carbon under drought");
            ("cited_by_count", VInt 12);
            ("publication_year", VInt 2024);
            ("abstract_inverted_index",
              VDict [("We", VList [VInt 0]);
                     ("study", VList [VInt 2]);
                     ("soils", VList [VInt 1])])]
           VNone VNone sample_doc 12 2024).
  - vm_compute. reflexivity.
  - reflexivity.
  - reflexivity.
  - vm_compute. split; discriminate.
  - vm_compute. discriminate.
Defined.

Lemma find_put_kept : forall _id other doc docs,
  Store.find other docs <> None ->
  Store.find other (Store.put _id doc docs) <> None.
Proof.
  intros _id other doc. induction docs as [| [k d] docs IH]; simpl; [trivial |].
  intros H. destruct (pyval_eqb k _id); simpl;
    destruct (pyval_eqb k other); try discriminate; auto.
Qed.

Lemma find_app_kept : forall other (x : pyval * pydict) docs,
  Store.find other docs <> None ->
  Store.find other (docs ++ [x])%list <> None.
Proof.
  intros other x. induction docs as [| [k d] docs IH]; simpl; [contradiction |].
  intros H. destruct (pyval_eqb k other); [discriminate | auto].
Qed.

Lemma upsert_one_keeps_ids : forall doc st other,
  Store.find other (Store.documents (store st)) <> None ->
  Store.find other (Store.documents (store (upsert_one doc st))) <> None.
Proof.
  intros doc st other H. unfold upsert_one. fold (doc_id doc).
  destruct (truthy (doc_id doc)) eqn:Hid; simpl; [| exact H].
  unfold Store.replace_one, Store.write.
  destruct (Store.faults (store st)) as [| [|] later];
    try destruct (hd false (Store.applied (store st)));
    destruct (Store.find (doc_id doc) (Store.documents (store st))) as [old |];
    simpl; rewrite ?Hid;
    try (destruct (pydict_eqb old doc); simpl);
    first [ exact H | apply find_put_kept; exact H | apply find_app_kept; exact H ].
Qed.

(** No batch, and no failure of the store, ever removes an id: what
    could be found in the collection before [upsert_to_db] can be found
    after it. *)
Theorem upsert_never_drops_an_id :
  forall papers coll other,
    Store.find other (Store.documents coll) <> None ->
    Store.find other (Store.documents (store (upsert_to_db papers coll))) <> None.
Proof.
  intros papers coll other H. unfold upsert_to_db.
  set (st0 := {| store := coll; inserted := 0; updated := 0; reported := [] |}).
  change (Store.find other (Store.documents (store st0)) <> None) in H.
  revert H. generalize st0. clear st0.
  induction papers as [| doc papers IH]; intros st H; cbn [upsert_loop];
    [exact H |].
  apply IH, upsert_one_keeps_ids. exact H.
Qed.

Lemma upsert_never_drops_an_id_witness :
  Store.find (doc_id paper_a)
    (Store.documents
       (store (upsert_to_db [paper_b; paper_c]
                 {| Store.documents := [(doc_id paper_a, paper_a)];
                    Store.faults := [true]; Store.applied := [] |}))) <> None.
Proof. apply upsert_never_drops_an_id. discriminate. Defined.

